(** * PortfolioTracker: position aggregation, valuation and currency conversion

    A shallow embedding of the computational core of [js/app.js]:
    [convertToEUR], [getCurrencyFromTicker], [fetchExchangeRates],
    [calculatePositions], the average-price helpers and the body of [init]
    between the loading of the transactions and the rendering of the tables.

    Modelling conventions.
    - A JavaScript number is an exact rational ([Qc], canonical fractions, so
      that [=] is Leibniz equality).  Rounding of IEEE doubles, [NaN] and the
      infinities are outside the model; every division of the source with a
      variable divisor sits under a guard [divisor > 0].
    - A value that may be [null] or [undefined] is an [option]; the source
      treats both alike wherever such a value is tested.
    - A JavaScript object used as a dictionary is an association list in
      property-creation order ([JsObject.t]); [Object.values] enumerates
      array-index keys first, in ascending numeric order, and then the other
      keys in creation order.  Properties inherited from [Object.prototype]
      are not modelled: keys are taken to be own properties only.
    - [console.warn] / [console.error] output and the DOM are not part of the
      values computed and are left out.
    - The network is an oracle [market] giving, per Yahoo ticker, the
      [regularMarketPrice] of the response when there is one. *)

From Stdlib Require Import QArith Qcanon ZArith NArith String Ascii List Bool Lia.
From Stdlib Require Import Permutation Sorted.
Import ListNotations.

Local Open Scope Qc_scope.
Local Open Scope string_scope.
Local Open Scope list_scope.

(** ** JavaScript numbers as exact rationals *)

Abbreviation num := Qc (only parsing).

Definition num_of_Z (z : Z) : num := Q2Qc (inject_Z z).

(** [x > y] on numbers. *)
Definition gtb (x y : num) : bool :=
  match (x ?= y)%Qc with Gt => true | _ => false end.

(** Truthiness of a number: every number but zero. *)
Definition truthy (x : num) : bool :=
  match (x ?= 0)%Qc with Eq => false | _ => true end.

(** [x || d] for a number [x]. *)
Definition num_or (x d : num) : num := if truthy x then x else d.

(** [v || d] for a possibly missing number [v]. *)
Definition or_default (v : option num) (d : num) : num :=
  match v with
  | Some x => num_or x d
  | None => d
  end.

Definition hundred : num := num_of_Z 100.

(** The literal [1.17]. *)
Definition gbp_fallback : num := Q2Qc (117 # 100).

(** ** Strings *)

Definition upper_ascii (c : ascii) : ascii :=
  let n := N_of_ascii c in
  if (N.leb 97 n && N.leb n 122)%bool then ascii_of_N (n - 32) else c.

(** [String.prototype.toUpperCase] on the ASCII range; other bytes are kept. *)
Fixpoint toUpperCase (s : string) : string :=
  match s with
  | EmptyString => EmptyString
  | String c r => String (upper_ascii c) (toUpperCase r)
  end.

(** [String.prototype.endsWith]. *)
Definition endsWith (s suffix : string) : bool :=
  let n := String.length s in
  let k := String.length suffix in
  (Nat.leb k n && String.eqb (substring (n - k) k s) suffix)%bool.

(** ** JavaScript objects used as dictionaries *)

Module JsObject.

Definition t (V : Type) : Type := list (string * V).

Definition empty {V} : t V := [].

(** [o[k]], [None] standing for [undefined]. *)
Fixpoint get {V} (o : t V) (k : string) : option V :=
  match o with
  | [] => None
  | (k', v) :: r => if String.eqb k k' then Some v else get r k
  end.

(** [o[k] = v]: overwrite in place, or create the property at the end. *)
Fixpoint set {V} (o : t V) (k : string) (v : V) : t V :=
  match o with
  | [] => [(k, v)]
  | (k', v') :: r =>
      if String.eqb k k' then (k', v) :: r else (k', v') :: set r k v
  end.

Definition keys {V} (o : t V) : list string := map fst o.

Definition digit_of (c : ascii) : option N :=
  let n := N_of_ascii c in
  if (N.leb 48 n && N.leb n 57)%bool then Some (n - 48)%N else None.

Fixpoint digits_value (acc : N) (s : string) : option N :=
  match s with
  | EmptyString => Some acc
  | String c r =>
      match digit_of c with
      | Some d => digits_value (acc * 10 + d)%N r
      | None => None
      end
  end.

(** An array index is a canonical decimal numeral below [2^32 - 1]. *)
Definition array_index (k : string) : option N :=
  match k with
  | EmptyString => None
  | String c r =>
      if (Ascii.eqb c "0" && negb (String.eqb r ""))%bool then None
      else
        match digits_value 0 k with
        | Some n => if N.ltb n 4294967295 then Some n else None
        | None => None
        end
  end.

Fixpoint insert_by_index {V} (e : N * V) (l : list (N * V)) : list (N * V) :=
  match l with
  | [] => [e]
  | e' :: r =>
      if N.leb (fst e) (fst e') then e :: l else e' :: insert_by_index e r
  end.

Fixpoint indexed {V} (o : t V) : list (N * V) :=
  match o with
  | [] => []
  | (k, v) :: r =>
      match array_index k with
      | Some n => insert_by_index (n, v) (indexed r)
      | None => indexed r
      end
  end.

Fixpoint named {V} (o : t V) : list V :=
  match o with
  | [] => []
  | (k, v) :: r =>
      match array_index k with
      | Some _ => named r
      | None => v :: named r
      end
  end.

(** [Object.values(o)]. *)
Definition values {V} (o : t V) : list V := map snd (indexed o) ++ named o.

End JsObject.

(** ** The price source *)

Section PriceSource.

(** [market t] is the [regularMarketPrice] of the response for ticker [t],
    [None] when the request fails or the field is missing. *)
Variable market : string -> option num.

(** [fetchYahooPrice]: a falsy price is reported as a failure. *)
Definition fetchYahooPrice (ticker : string) : option num :=
  match market ticker with
  | Some p => if truthy p then Some p else None
  | None => None
  end.

Definition EXCHANGE_RATE_TICKERS : list (string * string) :=
  [("GBP", "GBPEUR=X"); ("USD", "USDEUR=X");
   ("SEK", "SEKEUR=X"); ("PLN", "PLNEUR=X")].

Definition fallbacks : JsObject.t num :=
  [("GBP", Q2Qc (117 # 100)); ("USD", Q2Qc (92 # 100));
   ("SEK", Q2Qc (88 # 1000)); ("PLN", Q2Qc (23 # 100))].

(** One callback of the [map] in [fetchExchangeRates]. *)
Definition fetch_rate (rates : JsObject.t num) (entry : string * string)
  : JsObject.t num :=
  let '(currency, ticker) := entry in
  match fetchYahooPrice ticker with
  | Some rate =>
      if truthy rate then JsObject.set rates currency rate
      else JsObject.set rates currency
             (or_default (JsObject.get fallbacks currency) 1)
  | None =>
      JsObject.set rates currency
        (or_default (JsObject.get fallbacks currency) 1)
  end.

(** [fetchExchangeRates]; the callbacks are run in the order of the table. *)
Definition fetchExchangeRates : JsObject.t num :=
  fold_left fetch_rate EXCHANGE_RATE_TICKERS [("EUR", 1)].

End PriceSource.

(** ** Currency conversion *)

(** [convertToEUR(price, localCurrency, rates)]. *)
Definition convertToEUR (price : option num) (localCurrency : string)
    (rates : JsObject.t num) : option num :=
  match price with
  | None => None
  | Some price =>
      if String.eqb localCurrency "GBX" then
        Some ((price / hundred) * or_default (JsObject.get rates "GBP") gbp_fallback)
      else
        let currency := toUpperCase localCurrency in
        if String.eqb currency "EUR" then Some price
        else
          match JsObject.get rates currency with
          | Some rate => if truthy rate then Some (price * rate) else Some price
          | None => Some price
          end
  end.

(** [getCurrencyFromTicker(ticker)]. *)
Definition getCurrencyFromTicker (ticker : string) : string :=
  if endsWith ticker ".L" then "GBX"
  else if endsWith ticker ".AS" then "EUR"
  else if endsWith ticker ".DE" then "EUR"
  else if endsWith ticker ".ST" then "SEK"
  else if endsWith ticker ".WA" then "PLN"
  else "USD".

(** ** Data model *)

Module Tx.
(** One element of the [transactions] array. *)
Record t : Type := mk {
  yahooTicker : string;
  name : string;
  type : string;
  quantity : num;
  pricePerShare : num;
  localCurrency : string;
  eurValue : num;
  totalCosts : option num;
  totalEur : num
}.
End Tx.

Module Lot.
(** An element of [position.buys] or [position.sells]. *)
Record t : Type := mk {
  quantity : num;
  pricePerShare : num;
  localCurrency : string;
  eurValue : num;
  totalCosts : num;
  totalEur : num
}.
End Lot.

Module Position.
Record t : Type := mk {
  ticker : string;
  name : string;
  localCurrency : string;
  buys : list Lot.t;
  sells : list Lot.t;
  currentQuantity : num
}.
End Position.

(** ** Position aggregation *)

(** The object literal pushed on [buys] or [sells]. *)
Definition lot_of (tx : Tx.t) : Lot.t :=
  {| Lot.quantity := Tx.quantity tx;
     Lot.pricePerShare := Tx.pricePerShare tx;
     Lot.localCurrency := Tx.localCurrency tx;
     Lot.eurValue := Tx.eurValue tx;
     Lot.totalCosts := or_default (Tx.totalCosts tx) 0;
     Lot.totalEur := Tx.totalEur tx |}.

(** The position created at the first transaction of a ticker. *)
Definition new_position (tx : Tx.t) : Position.t :=
  {| Position.ticker := Tx.yahooTicker tx;
     Position.name := Tx.name tx;
     Position.localCurrency := Tx.localCurrency tx;
     Position.buys := [];
     Position.sells := [];
     Position.currentQuantity := 0 |}.

(** The [if (tx.type === 'buy') ... else if (tx.type === 'sell') ...] on the
    position of the ticker. *)
Definition record_tx (tx : Tx.t) (position : Position.t) : Position.t :=
  if String.eqb (Tx.type tx) "buy" then
    {| Position.ticker := Position.ticker position;
       Position.name := Position.name position;
       Position.localCurrency := Position.localCurrency position;
       Position.buys := Position.buys position ++ [lot_of tx];
       Position.sells := Position.sells position;
       Position.currentQuantity :=
         Position.currentQuantity position + Tx.quantity tx |}
  else if String.eqb (Tx.type tx) "sell" then
    {| Position.ticker := Position.ticker position;
       Position.name := Position.name position;
       Position.localCurrency := Position.localCurrency position;
       Position.buys := Position.buys position;
       Position.sells := Position.sells position ++ [lot_of tx];
       Position.currentQuantity :=
         Position.currentQuantity position - Tx.quantity tx |}
  else position.

(** The body of the [forEach] in [calculatePositions]. *)
Definition process_tx (positionsByTicker : JsObject.t Position.t) (tx : Tx.t)
    : JsObject.t Position.t :=
  let ticker := Tx.yahooTicker tx in
  let positionsByTicker :=
    match JsObject.get positionsByTicker ticker with
    | None => JsObject.set positionsByTicker ticker (new_position tx)
    | Some _ => positionsByTicker
    end in
  match JsObject.get positionsByTicker ticker with
  | Some position =>
      JsObject.set positionsByTicker ticker (record_tx tx position)
  | None => positionsByTicker
  end.

(** [calculatePositions(transactions)]. *)
Definition calculatePositions (transactions : list Tx.t)
    : JsObject.t Position.t :=
  fold_left process_tx transactions JsObject.empty.

(** ** Average prices and costs *)

(** [calculateAvgBuyPrice(buys)]. *)
Definition calculateAvgBuyPrice (buys : list Lot.t) : num :=
  if Nat.eqb (List.length buys) 0 then 0
  else
    let '(totalCost, totalQuantity) :=
      fold_left
        (fun '(totalCost, totalQuantity) buy =>
           (totalCost + Lot.totalEur buy, totalQuantity + Lot.quantity buy))
        buys (0, 0) in
    if gtb totalQuantity 0 then totalCost / totalQuantity else 0.

(** [calculateAvgSellPrice(sells)]. *)
Definition calculateAvgSellPrice (sells : list Lot.t) : num :=
  if Nat.eqb (List.length sells) 0 then 0
  else
    let '(totalValue, totalQuantity) :=
      fold_left
        (fun '(totalValue, totalQuantity) sell =>
           (totalValue + Lot.eurValue sell, totalQuantity + Lot.quantity sell))
        sells (0, 0) in
    if gtb totalQuantity 0 then totalValue / totalQuantity else 0.

(** [calculateTotalCosts(buys, sells)]. *)
Definition calculateTotalCosts (buys sells : list Lot.t) : num :=
  let total := 0 in
  let total :=
    fold_left (fun total b => total + num_or (Lot.totalCosts b) 0) buys total in
  let total :=
    fold_left (fun total s => total + num_or (Lot.totalCosts s) 0) sells total in
  total.

(** ** Valuation *)

Module OpenRecord.
(** An element of [openData]; [portfolioPercent] is set by the second pass. *)
Record t : Type := mk {
  ticker : string;
  name : string;
  quantity : num;
  avgBuyPrice : num;
  currentPriceEUR : option num;
  currentValue : option num;
  pl : option num;
  plPercent : option num;
  portfolioPercent : option num
}.
End OpenRecord.

Module ClosedRecord.
(** An element of [closedData]. *)
Record t : Type := mk {
  ticker : string;
  name : string;
  quantityTraded : num;
  avgBuyPrice : num;
  avgSellPrice : num;
  totalCosts : num;
  realizedPL : num
}.
End ClosedRecord.

(** The running totals of [init]. *)
Record Totals : Type := mkTotals {
  totalPortfolioValue : num;
  totalInvested : num;
  totalUnrealizedPL : num
}.

(** The loop separating open from closed positions: the pair is
    ([openPositions], [closedPositions]). *)
Definition classify_step (acc : list Position.t * list Position.t)
    (pos : Position.t) : list Position.t * list Position.t :=
  let '(openPositions, closedPositions) := acc in
  if gtb (Position.currentQuantity pos) 0 then
    (openPositions ++ [pos], closedPositions)
  else if Nat.ltb 0 (List.length (Position.sells pos)) then
    (openPositions, closedPositions ++ [pos])
  else (openPositions, closedPositions).

Definition classify (positions : JsObject.t Position.t)
    : list Position.t * list Position.t :=
  fold_left classify_step (JsObject.values positions) ([], []).

(** [stockPrices[ticker]]; a missing property and [null] are both [None]. *)
Definition price_of (stockPrices : JsObject.t (option num)) (ticker : string)
    : option num :=
  match JsObject.get stockPrices ticker with
  | Some p => p
  | None => None
  end.

(** [invested] of the callback on an open position. *)
Definition invested (pos : Position.t) : num :=
  calculateAvgBuyPrice (Position.buys pos) * Position.currentQuantity pos.

(** The record returned by the callback of [openPositions.map]. *)
Definition open_metrics (rates : JsObject.t num)
    (stockPrices : JsObject.t (option num)) (pos : Position.t)
    : OpenRecord.t :=
  let avgBuyPrice := calculateAvgBuyPrice (Position.buys pos) in
  let localCurrency := getCurrencyFromTicker (Position.ticker pos) in
  let currentLocalPrice := price_of stockPrices (Position.ticker pos) in
  let currentPriceEUR := convertToEUR currentLocalPrice localCurrency rates in
  let invested := avgBuyPrice * Position.currentQuantity pos in
  let currentValue :=
    match currentPriceEUR with
    | Some p => Some (p * Position.currentQuantity pos)
    | None => None
    end in
  let pl :=
    match currentValue with
    | Some v => Some (v - invested)
    | None => None
    end in
  let plPercent :=
    match pl with
    | Some p =>
        if gtb invested 0 then Some ((p / invested) * hundred) else None
    | None => None
    end in
  {| OpenRecord.ticker := Position.ticker pos;
     OpenRecord.name := Position.name pos;
     OpenRecord.quantity := Position.currentQuantity pos;
     OpenRecord.avgBuyPrice := avgBuyPrice;
     OpenRecord.currentPriceEUR := currentPriceEUR;
     OpenRecord.currentValue := currentValue;
     OpenRecord.pl := pl;
     OpenRecord.plPercent := plPercent;
     OpenRecord.portfolioPercent := None |}.

(** One call of the callback of [openPositions.map], with the totals it
    updates. *)
Definition open_step (rates : JsObject.t num)
    (stockPrices : JsObject.t (option num))
    (acc : list OpenRecord.t * Totals) (pos : Position.t)
    : list OpenRecord.t * Totals :=
  let '(openData, totals) := acc in
  let d := open_metrics rates stockPrices pos in
  let tpv :=
    match OpenRecord.currentValue d with
    | Some v => totalPortfolioValue totals + v
    | None => totalPortfolioValue totals
    end in
  let ti := totalInvested totals + invested pos in
  let tu :=
    match OpenRecord.pl d with
    | Some p => totalUnrealizedPL totals + p
    | None => totalUnrealizedPL totals
    end in
  (openData ++ [d], mkTotals tpv ti tu).

(** The callback of [openData.forEach]. *)
Definition set_portfolioPercent (totalPortfolioValue : num) (d : OpenRecord.t)
    : OpenRecord.t :=
  {| OpenRecord.ticker := OpenRecord.ticker d;
     OpenRecord.name := OpenRecord.name d;
     OpenRecord.quantity := OpenRecord.quantity d;
     OpenRecord.avgBuyPrice := OpenRecord.avgBuyPrice d;
     OpenRecord.currentPriceEUR := OpenRecord.currentPriceEUR d;
     OpenRecord.currentValue := OpenRecord.currentValue d;
     OpenRecord.pl := OpenRecord.pl d;
     OpenRecord.plPercent := OpenRecord.plPercent d;
     OpenRecord.portfolioPercent :=
       match OpenRecord.currentValue d with
       | Some v =>
           if gtb totalPortfolioValue 0
           then Some ((v / totalPortfolioValue) * hundred)
           else None
       | None => None
       end |}.

(** The record returned by the callback of [closedPositions.map]. *)
Definition closed_metrics (pos : Position.t) : ClosedRecord.t :=
  let avgBuyPrice := calculateAvgBuyPrice (Position.buys pos) in
  let avgSellPrice := calculateAvgSellPrice (Position.sells pos) in
  let totalQtySold :=
    fold_left (fun sum s => sum + Lot.quantity s) (Position.sells pos) 0 in
  let totalCosts :=
    calculateTotalCosts (Position.buys pos) (Position.sells pos) in
  let sellCosts :=
    fold_left (fun sum s => sum + num_or (Lot.totalCosts s) 0)
      (Position.sells pos) 0 in
  let realizedPL := (avgSellPrice - avgBuyPrice) * totalQtySold - sellCosts in
  {| ClosedRecord.ticker := Position.ticker pos;
     ClosedRecord.name := Position.name pos;
     ClosedRecord.quantityTraded := totalQtySold;
     ClosedRecord.avgBuyPrice := avgBuyPrice;
     ClosedRecord.avgSellPrice := avgSellPrice;
     ClosedRecord.totalCosts := totalCosts;
     ClosedRecord.realizedPL := realizedPL |}.

Definition closed_step (acc : list ClosedRecord.t * num) (pos : Position.t)
    : list ClosedRecord.t * num :=
  let '(closedData, totalRealizedPL) := acc in
  let d := closed_metrics pos in
  (closedData ++ [d], totalRealizedPL + ClosedRecord.realizedPL d).

(** ** The pipeline of [init] *)

Module Dashboard.
(** What [init] hands to the rendering functions. *)
Record t : Type := mk {
  openData : list OpenRecord.t;
  closedData : list ClosedRecord.t;
  totals : Totals;
  totalRealizedPL : num
}.
End Dashboard.

(** [init] either reaches the rendering calls or ends in its [catch]. *)
Inductive outcome : Type :=
| Failed (message : string)
| Rendered (d : Dashboard.t).

(** [[...new Set(l)]]: the first occurrence of each element, in order. *)
Fixpoint unique_from (seen l : list string) : list string :=
  match l with
  | [] => []
  | x :: r =>
      if existsb (String.eqb x) seen then unique_from seen r
      else x :: unique_from (x :: seen) r
  end.

Definition unique (l : list string) : list string := unique_from [] l.

Section Init.

Variable market : string -> option num.

(** The body of [init] from the emptiness test to the rendering calls, for
    the sequence that [loadTransactions] returned. *)
Definition init (transactions : list Tx.t) : outcome :=
  if Nat.eqb (List.length transactions) 0 then Failed "No transactions found"
  else
    let positions := calculatePositions transactions in
    let tickers := unique (map Tx.yahooTicker transactions) in
    let rates := fetchExchangeRates market in
    let prices := map (fetchYahooPrice market) tickers in
    let exchangeRates := rates in
    let stockPrices :=
      fold_left (fun o '(ticker, price) => JsObject.set o ticker price)
        (combine tickers prices) JsObject.empty in
    let '(openPositions, closedPositions) := classify positions in
    let '(openData, totals) :=
      fold_left (open_step exchangeRates stockPrices) openPositions
        ([], mkTotals 0 0 0) in
    let openData :=
      map (set_portfolioPercent (totalPortfolioValue totals)) openData in
    let '(closedData, totalRealizedPL) :=
      fold_left closed_step closedPositions ([], 0) in
    Rendered
      {| Dashboard.openData := openData;
         Dashboard.closedData := closedData;
         Dashboard.totals := totals;
         Dashboard.totalRealizedPL := totalRealizedPL |}.

End Init.

(** The position a transaction is recorded on. *)
Definition position_for (m : JsObject.t Position.t) (tx : Tx.t) : Position.t :=
  match JsObject.get m (Tx.yahooTicker tx) with
  | Some pos => pos
  | None => new_position tx
  end.

(** ** Quantities of the specification *)

(** The transactions of identifier [ticker] whose kind is [kind]. *)
Definition of_kind (kind ticker : string) (tx : Tx.t) : bool :=
  (String.eqb (Tx.yahooTicker tx) ticker && String.eqb (Tx.type tx) kind)%bool.

Definition total (l : list num) : num := fold_right Qcplus 0 l.

(** The sum of the quantities of the transactions of [ticker] of kind
    [kind]. *)
Definition quantity_sum (kind ticker : string) (transactions : list Tx.t)
    : num :=
  total (map Tx.quantity (filter (of_kind kind ticker) transactions)).

(** A kind the aggregation recognises. *)
Definition recognised (kind : string) : bool :=
  (String.eqb kind "buy" || String.eqb kind "sell")%bool.

(** The codes a rate table built by [fetchExchangeRates] can hold. *)
Definition rate_codes : list string := ["EUR"; "GBP"; "USD"; "SEK"; "PLN"].

Definition example_buy (name cur : string) (pps ev : num) (costs : option num)
    : Tx.t :=
  Tx.mk "AAA" name "buy" (num_of_Z 10) pps cur ev costs (num_of_Z 1020).

Definition example_sell (name cur : string) (pps total : num) : Tx.t :=
  Tx.mk "AAA" name "sell" (num_of_Z 10) pps cur (num_of_Z 480)
    (Some (num_of_Z 2)) total.

(** What a position holds: running quantity, buy lots and sell lots. *)
Definition holdings (pos : Position.t) : num * list Lot.t * list Lot.t :=
  (Position.currentQuantity pos, Position.buys pos, Position.sells pos).

(** The holdings of a ticker in an aggregated object; a ticker without a
    position holds what a position just created holds. *)
Definition holdings_of (m : JsObject.t Position.t) (t : string)
    : num * list Lot.t * list Lot.t :=
  match JsObject.get m t with
  | Some pos => holdings pos
  | None => (0, [], [])
  end.

Definition dividend_AAA : Tx.t :=
  Tx.mk "AAA" "Triple A" "dividend" (num_of_Z 3) 1 "USD" 1 None 1.

Definition dividend_BBB : Tx.t :=
  Tx.mk "BBB" "Triple B" "dividend" (num_of_Z 3) 1 "USD" 1 None 1.

(** Five shares received for nothing, quoted in Amsterdam. *)
Definition free_shares : Position.t :=
  {| Position.ticker := "FREE.AS";
     Position.name := "Free";
     Position.localCurrency := "EUR";
     Position.buys :=
       [Lot.mk (num_of_Z 5) 0 "EUR" 0 0 0];
     Position.sells := [];
     Position.currentQuantity := num_of_Z 5 |}.

(** The [tickers] array of [init]. *)
Definition tickers_of (transactions : list Tx.t) : list string :=
  unique (map Tx.yahooTicker transactions).

(** The [stockPrices] object of [init] once the prices are stored. *)
Definition stockPrices_of (market : string -> option num)
    (transactions : list Tx.t) : JsObject.t (option num) :=
  fold_left (fun o '(ticker, price) => JsObject.set o ticker price)
    (combine (tickers_of transactions)
       (map (fetchYahooPrice market) (tickers_of transactions)))
    JsObject.empty.

(** A property of every record of the open table, when [init] rendered. *)
Definition forall_open_records (o : outcome) (P : OpenRecord.t -> Prop)
    : Prop :=
  match o with
  | Failed _ => True
  | Rendered d => forall r, In r (Dashboard.openData d) -> P r
  end.


Module Summary.
(** What [updateSummary] computes before it formats and writes it. *)
Record t : Type := mk {
  totalPL : num;
  totalPLPercent : num;
  totalPLClass : string;
  unrealizedClass : string;
  realizedClass : string
}.
End Summary.

(** [x >= 0 ? 'profit' : 'loss']. *)
Definition profit_or_loss (x : num) : string :=
  if gtb 0 x then "loss" else "profit".

(** The computations of [updateSummary] on the totals [init] passes. *)
Definition updateSummary (totals : Totals) (totalRealizedPL : num)
    : Summary.t :=
  let totalPL := totalUnrealizedPL totals + totalRealizedPL in
  let totalPLPercent :=
    if gtb (totalInvested totals) 0
    then (totalPL / totalInvested totals) * hundred else 0 in
  {| Summary.totalPL := totalPL;
     Summary.totalPLPercent := totalPLPercent;
     Summary.totalPLClass := "summary-value " ++ profit_or_loss totalPL;
     Summary.unrealizedClass :=
       "summary-value " ++ profit_or_loss (totalUnrealizedPL totals);
     Summary.realizedClass :=
       "summary-value " ++ profit_or_loss totalRealizedPL |}.

(** The two tests of the loop that separates the positions. *)
Definition is_open (pos : Position.t) : bool :=
  gtb (Position.currentQuantity pos) 0.

Definition is_closed (pos : Position.t) : bool :=
  (negb (gtb (Position.currentQuantity pos) 0)
   && Nat.ltb 0 (List.length (Position.sells pos)))%bool.

(** The last character of a string. *)
Fixpoint last_char (s : string) : option ascii :=
  match s with
  | EmptyString => None
  | String c EmptyString => Some c
  | String _ r => last_char r
  end.

(** The comparator of the [sort] in [renderOpenPositions]:
    [(a, b) => (b.currentValue || 0) - (a.currentValue || 0)]. *)
Definition compare_rows (a b : OpenRecord.t) : num :=
  or_default (OpenRecord.currentValue b) 0
  - or_default (OpenRecord.currentValue a) 0.

(** The place of [r] in front of a sorted list: after the rows that the
    comparator puts strictly before it. *)
Fixpoint insert_row (r : OpenRecord.t) (l : list OpenRecord.t)
    : list OpenRecord.t :=
  match l with
  | [] => [r]
  | x :: rest =>
      if gtb (compare_rows r x) 0 then x :: insert_row r rest else r :: l
  end.

(** [data.sort(compare_rows)]: [Array.prototype.sort] is stable and the
    comparator is a total preorder on exact numbers, so the result is the
    stable sort, computed here by insertion from the right. *)
Definition sort_rows (data : list OpenRecord.t) : list OpenRecord.t :=
  fold_right insert_row [] data.

(** A row goes before another, or ties with it, for the comparator. *)
Definition row_before (a b : OpenRecord.t) : Prop := compare_rows a b <= 0.

(** * Properties *)

(** ** The definitions at work *)

Example currency_of_london : getCurrencyFromTicker "III.L" = "GBX".
Proof. reflexivity. Qed.

Example currency_of_stockholm : getCurrencyFromTicker "ROKO-B.ST" = "SEK".
Proof. reflexivity. Qed.

Example currency_of_nasdaq : getCurrencyFromTicker "AMZN" = "USD".
Proof. reflexivity. Qed.

Example upper_case_mixed : toUpperCase "gBx-1" = "GBX-1".
Proof. reflexivity. Qed.

Example values_order :
  JsObject.values
    [("b", 1%nat); ("10", 2%nat); ("a", 3%nat); ("2", 4%nat); ("02", 5%nat)]
  = [4; 2; 1; 3; 5]%nat.
Proof. reflexivity. Qed.

Example pence_to_euro :
  convertToEUR (Some (num_of_Z 250)) "GBX" [("GBP", Q2Qc (12 # 10))]
  = Some (num_of_Z 3).
Proof. simpl. f_equal. apply Qc_is_canon. reflexivity. Qed.

Example unique_keeps_first : unique ["B"; "A"; "B"; "C"; "A"] = ["B"; "A"; "C"].
Proof. reflexivity. Qed.

(** ** Numbers *)

Lemma gtb_true_iff (x y : num) : gtb x y = true <-> y < x.
Proof.
  unfold gtb. rewrite (Qcgt_alt x y).
  destruct (x ?= y)%Qc; split; intro H; try reflexivity; try discriminate; assumption.
Qed.

Lemma gtb_false_iff (x y : num) : gtb x y = false <-> x <= y.
Proof.
  unfold gtb. rewrite (Qcle_alt x y).
  destruct (x ?= y)%Qc; split; intro H; try reflexivity; try discriminate;
    try (intro; discriminate).
  exfalso. apply H. reflexivity.
Qed.

Lemma truthy_false_iff (x : num) : truthy x = false <-> x = 0.
Proof.
  unfold truthy. rewrite (Qceq_alt x 0).
  destruct (x ?= 0)%Qc; split; intro H; try reflexivity; discriminate.
Qed.

Lemma truthy_true_iff (x : num) : truthy x = true <-> x <> 0.
Proof.
  rewrite <- truthy_false_iff. destruct (truthy x); split; intro H;
    try reflexivity; try discriminate.
  exfalso. apply H. reflexivity.
Qed.

Lemma or_default_some (r d : num) : r <> 0 -> or_default (Some r) d = r.
Proof.
  intro H. unfold or_default, num_or.
  apply truthy_true_iff in H. rewrite H. reflexivity.
Qed.

(** ** Currency conversion *)

(** C6: an unknown price stays unknown, whatever the code and the rates. *)
Theorem convertToEUR_null (localCurrency : string) (rates : JsObject.t num) :
  convertToEUR None localCurrency rates = None.
Proof. reflexivity. Qed.

Lemma toUpperCase_EUR_not_GBX (code : string) :
  toUpperCase code = "EUR" -> String.eqb code "GBX" = false.
Proof.
  intro H. destruct (String.eqb code "GBX") eqn:E; [|reflexivity].
  apply String.eqb_eq in E. subst code. discriminate H.
Qed.

(** C7: with a code whose upper-case form is the reporting currency, a known
    price is returned unchanged, so that converting again changes nothing. *)
Theorem convertToEUR_reporting_currency (x : num) (code : string)
    (rates : JsObject.t num) :
  toUpperCase code = "EUR" ->
  convertToEUR (Some x) code rates = Some x /\
  convertToEUR (convertToEUR (Some x) code rates) code rates
    = convertToEUR (Some x) code rates.
Proof.
  intro H.
  assert (E : convertToEUR (Some x) code rates = Some x).
  { unfold convertToEUR. rewrite (toUpperCase_EUR_not_GBX code H).
    cbv zeta. rewrite H. reflexivity. }
  split; [exact E | rewrite E; exact E].
Qed.

Lemma convertToEUR_reporting_currency_witness :
  toUpperCase "Eur" = "EUR" /\
  convertToEUR (Some (num_of_Z 7)) "Eur" [("USD", num_of_Z 2)]
    = Some (num_of_Z 7).
Proof.
  split; [reflexivity|].
  apply (convertToEUR_reporting_currency (num_of_Z 7) "Eur" [("USD", num_of_Z 2)]).
  reflexivity.
Defined.


Lemma get_not_key {V} (o : JsObject.t V) (k : string) :
  ~ In k (JsObject.keys o) -> JsObject.get o k = None.
Proof.
  induction o as [|[k' v] r IH]; intro H; [reflexivity|].
  simpl in *. destruct (String.eqb k k') eqn:E.
  - apply String.eqb_eq in E. subst. exfalso. apply H. left. reflexivity.
  - apply IH. intro Hin. apply H. right. exact Hin.
Qed.

Lemma get_some_key {V} (o : JsObject.t V) (k : string) (v : V) :
  JsObject.get o k = Some v -> In k (JsObject.keys o).
Proof.
  induction o as [|[k' v'] r IH]; intro H; [discriminate|].
  simpl in *. destruct (String.eqb k k') eqn:E.
  - apply String.eqb_eq in E. left. symmetry. exact E.
  - right. apply IH. exact H.
Qed.

(** C10: the test for pence is an exact comparison with ['GBX'] made before
    the code is upper-cased.  With the five codes of the rate source as the
    only possible keys, ['GBX'] gives [(p / 100) * rates.GBP], with [1.17] in
    place of a missing or zero [rates.GBP], and ['gbx'] gives [p] back. *)
Theorem convertToEUR_GBX_case_sensitive (p : num) (rates : JsObject.t num) :
  (forall k, In k (JsObject.keys rates) -> In k rate_codes) ->
  (forall r, JsObject.get rates "GBP" = Some r -> r <> 0 ->
     convertToEUR (Some p) "GBX" rates = Some ((p / hundred) * r)) /\
  (JsObject.get rates "GBP" = None \/ JsObject.get rates "GBP" = Some 0 ->
     convertToEUR (Some p) "GBX" rates = Some ((p / hundred) * gbp_fallback)) /\
  toUpperCase "gbx" = "GBX" /\
  JsObject.get rates "GBX" = None /\
  convertToEUR (Some p) "gbx" rates = Some p.
Proof.
  intro Hkeys.
  assert (G : JsObject.get rates "GBX" = None).
  { apply get_not_key. intro Hin. apply Hkeys in Hin.
    unfold rate_codes in Hin. simpl in Hin.
    repeat (destruct Hin as [Hin|Hin]; [discriminate Hin|]). exact Hin. }
  repeat split.
  - intros r Hr Hnz. unfold convertToEUR. simpl String.eqb. cbv iota.
    rewrite Hr, (or_default_some r gbp_fallback Hnz). reflexivity.
  - intros [Hr|Hr]; unfold convertToEUR; simpl String.eqb; cbv iota;
      rewrite Hr; reflexivity.
  - exact G.
  - unfold convertToEUR. simpl String.eqb. cbv iota.
    change (toUpperCase "gbx") with "GBX". cbv zeta.
    simpl String.eqb. cbv iota. rewrite G. reflexivity.
Qed.

Lemma fetchExchangeRates_keys (market : string -> option num) :
  JsObject.keys (fetchExchangeRates market) = rate_codes.
Proof.
  unfold fetchExchangeRates, EXCHANGE_RATE_TICKERS, fetch_rate. simpl.
  repeat match goal with
         | |- context [fetchYahooPrice ?m ?t] =>
             destruct (fetchYahooPrice m t) as [?r|]
         | |- context [truthy ?r] => destruct (truthy r)
         end; reflexivity.
Qed.

Lemma convertToEUR_GBX_case_sensitive_witness :
  convertToEUR (Some (num_of_Z 250)) "GBX" (fetchExchangeRates (fun _ => None))
    = Some ((num_of_Z 250 / hundred) * gbp_fallback) /\
  convertToEUR (Some (num_of_Z 250)) "gbx" (fetchExchangeRates (fun _ => None))
    = Some (num_of_Z 250).
Proof.
  destruct (convertToEUR_GBX_case_sensitive (num_of_Z 250)
              (fetchExchangeRates (fun _ => None)))
    as (Hrate & _ & _ & _ & Hlower).
  - intros k Hk. rewrite fetchExchangeRates_keys in Hk. exact Hk.
  - split; [|exact Hlower].
    apply (Hrate gbp_fallback); [reflexivity|].
    intro H. discriminate H.
Defined.

(** ** The worked example *)

(** C1: a buy of 10 AAA for 1020 in total followed by a sell of 10 AAA worth
    480 with costs 2 leaves AAA with quantity 0 and one sell lot, hence
    closed, and its record has average buy price 102, average sell price 48,
    quantity traded 10 and realised result (48 - 102) * 10 - 2 = -542,
    whatever the other fields of the two transactions and the prices are. *)
Theorem closed_example_AAA (market : string -> option num)
    (n1 c1 n2 c2 : string) (pps1 ev1 pps2 total2 : num) (costs1 : option num) :
  let transactions :=
    [example_buy n1 c1 pps1 ev1 costs1; example_sell n2 c2 pps2 total2] in
  exists pos d r,
    JsObject.get (calculatePositions transactions) "AAA" = Some pos /\
    Position.currentQuantity pos = 0 /\
    List.length (Position.sells pos) = 1%nat /\
    classify (calculatePositions transactions) = ([], [pos]) /\
    init market transactions = Rendered d /\
    Dashboard.openData d = [] /\
    Dashboard.closedData d = [r] /\
    ClosedRecord.ticker r = "AAA" /\
    ClosedRecord.avgBuyPrice r = num_of_Z 102 /\
    ClosedRecord.avgSellPrice r = num_of_Z 48 /\
    ClosedRecord.quantityTraded r = num_of_Z 10 /\
    ClosedRecord.realizedPL r
      = (num_of_Z 48 - num_of_Z 102) * num_of_Z 10 - num_of_Z 2 /\
    ClosedRecord.realizedPL r = num_of_Z (-542).
Proof.
  intro transactions.
  eexists. eexists. eexists.
  split; [vm_compute; reflexivity|].
  split; [apply Qc_is_canon; vm_compute; reflexivity|].
  split; [reflexivity|].
  split.
  { vm_compute. reflexivity. }
  split; [vm_compute; reflexivity|].
  split; [reflexivity|].
  split; [reflexivity|].
  split; [reflexivity|].
  repeat split; apply Qc_is_canon; vm_compute; reflexivity.
Qed.

(** ** Objects as dictionaries *)

Lemma get_set_same {V} (o : JsObject.t V) (k : string) (v : V) :
  JsObject.get (JsObject.set o k v) k = Some v.
Proof.
  induction o as [|[k' v'] r IH]; simpl.
  - rewrite String.eqb_refl. reflexivity.
  - destruct (String.eqb k k') eqn:E; simpl; rewrite E; [reflexivity|exact IH].
Qed.

Lemma get_set_other {V} (o : JsObject.t V) (k k' : string) (v : V) :
  k <> k' -> JsObject.get (JsObject.set o k v) k' = JsObject.get o k'.
Proof.
  intro Hne. induction o as [|[k0 v0] r IH]; simpl.
  - destruct (String.eqb k' k) eqn:E; [|reflexivity].
    apply String.eqb_eq in E. congruence.
  - destruct (String.eqb k k0) eqn:E; simpl.
    + apply String.eqb_eq in E. subst k0.
      destruct (String.eqb k' k) eqn:E'; [|reflexivity].
      apply String.eqb_eq in E'. congruence.
    + rewrite IH. reflexivity.
Qed.

(** ** Aggregation, one transaction at a time *)

Lemma process_tx_same (m : JsObject.t Position.t) (tx : Tx.t) :
  JsObject.get (process_tx m tx) (Tx.yahooTicker tx)
    = Some (record_tx tx (position_for m tx)).
Proof.
  unfold process_tx, position_for.
  destruct (JsObject.get m (Tx.yahooTicker tx)) as [pos|] eqn:E.
  - rewrite E. apply get_set_same.
  - rewrite get_set_same. apply get_set_same.
Qed.

Lemma process_tx_other (m : JsObject.t Position.t) (tx : Tx.t) (t : string) :
  Tx.yahooTicker tx <> t ->
  JsObject.get (process_tx m tx) t = JsObject.get m t.
Proof.
  intro Hne. unfold process_tx.
  destruct (JsObject.get m (Tx.yahooTicker tx)) as [pos|] eqn:E.
  - rewrite E. apply get_set_other. exact Hne.
  - rewrite get_set_same. rewrite !get_set_other by exact Hne. reflexivity.
Qed.

Lemma calculatePositions_snoc (l : list Tx.t) (tx : Tx.t) :
  calculatePositions (l ++ [tx]) = process_tx (calculatePositions l) tx.
Proof. unfold calculatePositions. rewrite fold_left_app. reflexivity. Qed.

Lemma total_app (l1 l2 : list num) : total (l1 ++ l2) = total l1 + total l2.
Proof.
  induction l1 as [|x l1 IH]; simpl.
  - ring.
  - rewrite IH. ring.
Qed.

Lemma quantity_sum_snoc (kind t : string) (l : list Tx.t) (tx : Tx.t) :
  quantity_sum kind t (l ++ [tx])
    = quantity_sum kind t l
      + (if of_kind kind t tx then Tx.quantity tx else 0).
Proof.
  unfold quantity_sum. rewrite filter_app, map_app, total_app. simpl.
  destruct (of_kind kind t tx); simpl; ring.
Qed.

Lemma quantity_record_tx (tx : Tx.t) (pos : Position.t) :
  Position.currentQuantity (record_tx tx pos)
    = Position.currentQuantity pos
      + (if String.eqb (Tx.type tx) "buy" then Tx.quantity tx else 0)
      - (if String.eqb (Tx.type tx) "sell" then Tx.quantity tx else 0).
Proof.
  unfold record_tx.
  destruct (String.eqb (Tx.type tx) "buy") eqn:Eb.
  - apply String.eqb_eq in Eb. rewrite Eb. simpl. ring.
  - destruct (String.eqb (Tx.type tx) "sell"); simpl; ring.
Qed.

Lemma quantity_sum_unseen (kind t : string) (l : list Tx.t) :
  ~ In t (map Tx.yahooTicker l) -> quantity_sum kind t l = 0.
Proof.
  intro H. unfold quantity_sum.
  induction l as [|tx l IH]; [reflexivity|].
  simpl in *. unfold of_kind at 1.
  destruct (String.eqb (Tx.yahooTicker tx) t) eqn:E.
  - apply String.eqb_eq in E. exfalso. apply H. left. exact E.
  - simpl. apply IH. intro Hin. apply H. right. exact Hin.
Qed.

(** The invariant of the fold: a ticker has a position exactly when it has
    been seen, and the running quantity is then the difference of the sums. *)
Lemma calculatePositions_quantity (transactions : list Tx.t) (t : string) :
  match JsObject.get (calculatePositions transactions) t with
  | Some pos =>
      In t (map Tx.yahooTicker transactions) /\
      Position.currentQuantity pos
        = quantity_sum "buy" t transactions - quantity_sum "sell" t transactions
  | None => ~ In t (map Tx.yahooTicker transactions)
  end.
Proof.
  induction transactions as [|tx l IH] using rev_ind.
  - simpl. intros [].
  - rewrite calculatePositions_snoc, map_app, !quantity_sum_snoc.
    destruct (String.eqb (Tx.yahooTicker tx) t) eqn:E.
    + apply String.eqb_eq in E. subst t.
      rewrite process_tx_same. split.
      * apply in_or_app. right. left. reflexivity.
      * rewrite quantity_record_tx. unfold of_kind, position_for.
        rewrite String.eqb_refl. simpl andb.
        destruct (JsObject.get (calculatePositions l) (Tx.yahooTicker tx))
          as [pos|].
        -- destruct IH as [_ IH]. rewrite IH. ring.
        -- rewrite !(quantity_sum_unseen _ _ _ IH). simpl. ring.
    + assert (Hne : Tx.yahooTicker tx <> t).
      { intro H. subst t. rewrite String.eqb_refl in E. discriminate. }
      rewrite (process_tx_other _ _ _ Hne). unfold of_kind. rewrite E. simpl andb.
      destruct (JsObject.get (calculatePositions l) t) as [pos|].
      * destruct IH as [Hin IH]. split.
        -- apply in_or_app. left. exact Hin.
        -- rewrite IH. ring.
      * intro Hin. apply in_app_or in Hin. destruct Hin as [Hin|[Hin|[]]].
        -- exact (IH Hin).
        -- exact (Hne Hin).
Qed.

Lemma running_quantity_exists (transactions : list Tx.t) (t : string) :
  In t (map Tx.yahooTicker transactions) ->
  exists pos, JsObject.get (calculatePositions transactions) t = Some pos.
Proof.
  intro Hin. pose proof (calculatePositions_quantity transactions t) as H.
  destruct (JsObject.get (calculatePositions transactions) t) as [pos|].
  - exists pos. reflexivity.
  - contradiction.
Qed.



(** ** Invariants of the aggregated object *)

Lemma keys_set {V} (o : JsObject.t V) (k : string) (v : V) (k' : string) :
  In k' (JsObject.keys (JsObject.set o k v)) <-> k' = k \/ In k' (JsObject.keys o).
Proof.
  induction o as [|[k0 v0] r IH]; simpl.
  - split; intros [H|H]; auto; contradiction.
  - destruct (String.eqb k k0) eqn:E; simpl.
    + apply String.eqb_eq in E. subst k0. split; [intros [H|H]|intros [H|[H|H]]]; auto.
    + unfold JsObject.keys in IH. rewrite IH. tauto.
Qed.

Lemma NoDup_keys_set {V} (o : JsObject.t V) (k : string) (v : V) :
  NoDup (JsObject.keys o) -> NoDup (JsObject.keys (JsObject.set o k v)).
Proof.
  induction o as [|[k0 v0] r IH]; simpl; intro H.
  - constructor; [intros []|constructor].
  - destruct (String.eqb k k0) eqn:E; simpl; [exact H|].
    inversion H as [|x l Hnotin Hnd]; subst. constructor.
    + intro Hin. apply (keys_set r k v k0) in Hin. destruct Hin as [Hin|Hin].
      * subst k0. rewrite String.eqb_refl in E. discriminate.
      * exact (Hnotin Hin).
    + apply IH. exact Hnd.
Qed.

Lemma NoDup_keys_process_tx (m : JsObject.t Position.t) (tx : Tx.t) :
  NoDup (JsObject.keys m) -> NoDup (JsObject.keys (process_tx m tx)).
Proof.
  intro H. unfold process_tx.
  destruct (JsObject.get m (Tx.yahooTicker tx)) as [pos|] eqn:E.
  - rewrite E. apply NoDup_keys_set. exact H.
  - rewrite get_set_same. apply NoDup_keys_set, NoDup_keys_set. exact H.
Qed.

Lemma NoDup_keys_calculatePositions (transactions : list Tx.t) :
  NoDup (JsObject.keys (calculatePositions transactions)).
Proof.
  induction transactions as [|tx l IH] using rev_ind.
  - constructor.
  - rewrite calculatePositions_snoc. apply NoDup_keys_process_tx. exact IH.
Qed.

Lemma In_get {V} (o : JsObject.t V) (k : string) (v : V) :
  NoDup (JsObject.keys o) -> (In (k, v) o <-> JsObject.get o k = Some v).
Proof.
  induction o as [|[k0 v0] r IH]; simpl; intro H.
  - split; [intros []|discriminate].
  - inversion H as [|x l Hnotin Hnd]; subst.
    destruct (String.eqb k k0) eqn:E.
    + apply String.eqb_eq in E. subst k0. split.
      * intros [Heq|Hin]; [congruence|].
        exfalso. apply Hnotin. apply (in_map fst) in Hin. exact Hin.
      * intro Heq. left. congruence.
    + rewrite <- (IH Hnd). split.
      * intros [Heq|Hin]; [|exact Hin].
        inversion Heq; subst. rewrite String.eqb_refl in E. discriminate.
      * intro Hin. right. exact Hin.
Qed.

Lemma ticker_record_tx (tx : Tx.t) (pos : Position.t) :
  Position.ticker (record_tx tx pos) = Position.ticker pos.
Proof.
  unfold record_tx.
  destruct (String.eqb (Tx.type tx) "buy"); [reflexivity|].
  destruct (String.eqb (Tx.type tx) "sell"); reflexivity.
Qed.

(** Every position is stored under its own ticker. *)
Lemma ticker_calculatePositions (transactions : list Tx.t) (t : string)
    (pos : Position.t) :
  JsObject.get (calculatePositions transactions) t = Some pos ->
  Position.ticker pos = t.
Proof.
  revert t pos.
  induction transactions as [|tx l IH] using rev_ind; intros t pos H.
  - discriminate H.
  - rewrite calculatePositions_snoc in H.
    destruct (String.eqb (Tx.yahooTicker tx) t) eqn:E.
    + apply String.eqb_eq in E. subst t. rewrite process_tx_same in H.
      inversion H; subst. rewrite ticker_record_tx. unfold position_for.
      destruct (JsObject.get (calculatePositions l) (Tx.yahooTicker tx))
        as [p|] eqn:G; [apply IH; exact G|reflexivity].
    + rewrite process_tx_other in H; [apply IH; exact H|].
      intro Heq. subst t. rewrite String.eqb_refl in E. discriminate.
Qed.

Lemma In_insert_by_index {V} (e x : N * V) (l : list (N * V)) :
  In x (JsObject.insert_by_index e l) <-> x = e \/ In x l.
Proof.
  induction l as [|e' r IH]; simpl.
  - split; intros [H|H]; auto; contradiction.
  - destruct (N.leb (fst e) (fst e')); simpl.
    + split; [intros [H|[H|H]]|intros [H|[H|H]]]; auto.
    + rewrite IH. split; [intros [H|[H|H]]|intros [H|[H|H]]]; auto.
Qed.

Lemma In_indexed {V} (o : JsObject.t V) (n : N) (v : V) :
  In (n, v) (JsObject.indexed o)
  <-> exists k, In (k, v) o /\ JsObject.array_index k = Some n.
Proof.
  induction o as [|[k0 v0] r IH]; simpl.
  - split; [intros []|intros (k & [] & _)].
  - destruct (JsObject.array_index k0) as [n0|] eqn:E.
    + rewrite In_insert_by_index, IH. split.
      * intros [H|(k & Hin & Hk)].
        -- inversion H; subst. exists k0. split; [left; reflexivity|exact E].
        -- exists k. split; [right; exact Hin|exact Hk].
      * intros (k & [H|Hin] & Hk).
        -- inversion H; subst. left. congruence.
        -- right. exists k. split; assumption.
    + rewrite IH. split.
      * intros (k & Hin & Hk). exists k. split; [right; exact Hin|exact Hk].
      * intros (k & [H|Hin] & Hk).
        -- inversion H; subst. congruence.
        -- exists k. split; assumption.
Qed.

Lemma In_named {V} (o : JsObject.t V) (v : V) :
  In v (JsObject.named o)
  <-> exists k, In (k, v) o /\ JsObject.array_index k = None.
Proof.
  induction o as [|[k0 v0] r IH]; simpl.
  - split; [intros []|intros (k & [] & _)].
  - destruct (JsObject.array_index k0) as [n0|] eqn:E.
    + rewrite IH. split.
      * intros (k & Hin & Hk). exists k. split; [right; exact Hin|exact Hk].
      * intros (k & [H|Hin] & Hk).
        -- inversion H; subst. congruence.
        -- exists k. split; assumption.
    + simpl. rewrite IH. split.
      * intros [H|(k & Hin & Hk)].
        -- subst. exists k0. split; [left; reflexivity|exact E].
        -- exists k. split; [right; exact Hin|exact Hk].
      * intros (k & [H|Hin] & Hk).
        -- inversion H; subst. left. reflexivity.
        -- right. exists k. split; assumption.
Qed.

(** [Object.values] lists the values of the properties, whatever the order. *)
Lemma In_values {V} (o : JsObject.t V) (v : V) :
  In v (JsObject.values o) <-> exists k, In (k, v) o.
Proof.
  unfold JsObject.values. rewrite in_app_iff, In_named. split.
  - intros [H|(k & Hin & _)].
    + apply in_map_iff in H. destruct H as ([n v'] & Hv & Hin). simpl in Hv.
      subst v'. apply In_indexed in Hin. destruct Hin as (k & Hin & _).
      exists k. exact Hin.
    + exists k. exact Hin.
  - intros (k & Hin). destruct (JsObject.array_index k) as [n|] eqn:E.
    + left. apply in_map_iff. exists (n, v). split; [reflexivity|].
      apply In_indexed. exists k. split; assumption.
    + right. exists k. split; assumption.
Qed.

Lemma In_values_calculatePositions (transactions : list Tx.t)
    (pos : Position.t) :
  In pos (JsObject.values (calculatePositions transactions))
  <-> JsObject.get (calculatePositions transactions) (Position.ticker pos)
      = Some pos.
Proof.
  rewrite In_values. split.
  - intros (k & Hin).
    apply In_get in Hin; [|apply NoDup_keys_calculatePositions].
    rewrite (ticker_calculatePositions _ _ _ Hin). exact Hin.
  - intro H. exists (Position.ticker pos).
    apply In_get; [apply NoDup_keys_calculatePositions|exact H].
Qed.

(** ** Classification *)

Lemma classify_step_open (l : list Position.t)
    (acc : list Position.t * list Position.t) (p : Position.t) :
  In p (fst (fold_left classify_step l acc))
  <-> In p (fst acc) \/ (In p l /\ 0 < Position.currentQuantity p).
Proof.
  revert acc. induction l as [|x l IH]; intros [o c]; simpl fold_left.
  - simpl. tauto.
  - rewrite IH. unfold classify_step.
    destruct (gtb (Position.currentQuantity x) 0) eqn:G.
    + apply gtb_true_iff in G. simpl. rewrite in_app_iff. simpl. split.
      * intros [[H|[H|[]]]|[H1 H2]]; subst; auto.
      * intros [H|[[H|H] H2]]; subst; auto.
    + apply gtb_false_iff in G.
      assert (Hx : ~ 0 < Position.currentQuantity x)
        by (apply Qcle_not_lt; exact G).
      destruct (Nat.ltb 0 (List.length (Position.sells x))); simpl; split.
      * intros [H|[H1 H2]]; auto.
      * intros [H|[[H|H] H2]]; subst; auto; contradiction.
      * intros [H|[H1 H2]]; auto.
      * intros [H|[[H|H] H2]]; subst; auto; contradiction.
Qed.

Lemma classify_step_closed (l : list Position.t)
    (acc : list Position.t * list Position.t) (p : Position.t) :
  In p (snd (fold_left classify_step l acc))
  <-> In p (snd acc)
      \/ (In p l /\ Position.currentQuantity p <= 0 /\ Position.sells p <> []).
Proof.
  revert acc. induction l as [|x l IH]; intros [o c]; simpl fold_left.
  - simpl. tauto.
  - rewrite IH. unfold classify_step.
    destruct (gtb (Position.currentQuantity x) 0) eqn:G.
    + apply gtb_true_iff in G.
      assert (Hx : ~ Position.currentQuantity x <= 0)
        by (apply Qclt_not_le; exact G).
      simpl. split.
      * intros [H|[H1 H2]]; auto.
      * intros [H|[[H|H] [H2 H3]]]; subst; auto; contradiction.
    + apply gtb_false_iff in G.
      destruct (Position.sells x) as [|s ss] eqn:S; simpl.
      * split.
        -- intros [H|[H1 H2]]; auto.
        -- intros [H|[[H|H] [H2 H3]]]; subst; auto.
           rewrite S in H3. contradiction.
      * rewrite in_app_iff. simpl. split.
        -- intros [[H|[H|[]]]|[H1 H2]]; subst; auto.
           right. split; [left; reflexivity|]. split; [exact G|].
           rewrite S. discriminate.
        -- intros [H|[[H|H] H2]]; subst; auto.
Qed.

Lemma In_open (m : JsObject.t Position.t) (p : Position.t) :
  In p (fst (classify m))
  <-> In p (JsObject.values m) /\ 0 < Position.currentQuantity p.
Proof. unfold classify. rewrite classify_step_open. simpl. tauto. Qed.

Lemma In_closed (m : JsObject.t Position.t) (p : Position.t) :
  In p (snd (classify m))
  <-> In p (JsObject.values m) /\ Position.currentQuantity p <= 0
      /\ Position.sells p <> [].
Proof. unfold classify. rewrite classify_step_closed. simpl. tauto. Qed.

Lemma seen_of_position (transactions : list Tx.t) (p : Position.t) :
  In p (JsObject.values (calculatePositions transactions)) ->
  In (Position.ticker p) (map Tx.yahooTicker transactions).
Proof.
  intro H. apply In_values_calculatePositions in H.
  pose proof (calculatePositions_quantity transactions (Position.ticker p)) as Q.
  rewrite H in Q. exact (proj1 Q).
Qed.

Lemma position_of_ticker (transactions : list Tx.t) (p q : Position.t) :
  In p (JsObject.values (calculatePositions transactions)) ->
  In q (JsObject.values (calculatePositions transactions)) ->
  Position.ticker p = Position.ticker q -> p = q.
Proof.
  intros Hp Hq E. apply In_values_calculatePositions in Hp, Hq.
  rewrite E in Hp. congruence.
Qed.

(** C3: after aggregation, the open output holds exactly the positions of
    positive quantity, the closed output exactly those of quantity at most 0
    with a sell lot, a position with neither is in no output, no identifier
    is in both outputs, and every identifier of an output was seen. *)
Theorem classification_partition (transactions : list Tx.t) :
  let positions := calculatePositions transactions in
  let openPositions := fst (classify positions) in
  let closedPositions := snd (classify positions) in
  (forall p, In p openPositions
     <-> In p (JsObject.values positions) /\ 0 < Position.currentQuantity p) /\
  (forall p, In p closedPositions
     <-> In p (JsObject.values positions) /\ Position.currentQuantity p <= 0
         /\ Position.sells p <> []) /\
  (forall p, In p (JsObject.values positions) ->
     Position.currentQuantity p <= 0 -> Position.sells p = [] ->
     ~ In p openPositions /\ ~ In p closedPositions) /\
  (forall t, ~ (In t (map Position.ticker openPositions)
                /\ In t (map Position.ticker closedPositions))) /\
  (forall t, In t (map Position.ticker openPositions)
             \/ In t (map Position.ticker closedPositions) ->
     In t (map Tx.yahooTicker transactions)).
Proof.
  intros positions openPositions closedPositions.
  subst openPositions closedPositions positions.
  split; [intro p; apply In_open|].
  split; [intro p; apply In_closed|].
  split; [|split].
  - intros p Hv Hq Hs. split.
    + rewrite In_open. intros [_ H]. exact (Qcle_not_lt _ _ Hq H).
    + rewrite In_closed. intros (_ & _ & H). exact (H Hs).
  - intros t [Ho Hc].
    apply in_map_iff in Ho, Hc.
    destruct Ho as (p & Hp & Ho). destruct Hc as (q & Hq & Hc).
    apply In_open in Ho. apply In_closed in Hc.
    destruct Ho as [Ho Hpos]. destruct Hc as (Hc & Hneg & _).
    assert (E : p = q)
      by (apply (position_of_ticker transactions); congruence).
    subst q. exact (Qcle_not_lt _ _ Hneg Hpos).
  - intros t [H|H]; apply in_map_iff in H; destruct H as (p & Hp & H); subst t.
    + apply In_open in H. apply seen_of_position. exact (proj1 H).
    + apply In_closed in H. apply seen_of_position. exact (proj1 H).
Qed.

(** ** Transactions of an unrecognised kind *)

Lemma record_tx_unrecognised (tx : Tx.t) (pos : Position.t) :
  recognised (Tx.type tx) = false -> record_tx tx pos = pos.
Proof.
  unfold recognised, record_tx. intro H.
  apply orb_false_iff in H. destruct H as [Hb Hs]. rewrite Hb, Hs. reflexivity.
Qed.




Lemma holdings_record_tx (tx : Tx.t) (p p' : Position.t) :
  holdings p = holdings p' ->
  holdings (record_tx tx p) = holdings (record_tx tx p').
Proof.
  unfold holdings, record_tx. intro H. injection H as Hq Hb Hs.
  destruct (String.eqb (Tx.type tx) "buy"); simpl.
  - rewrite Hq, Hb, Hs. reflexivity.
  - destruct (String.eqb (Tx.type tx) "sell"); simpl;
      rewrite Hq, Hb, Hs; reflexivity.
Qed.

Lemma holdings_position_for (m : JsObject.t Position.t) (tx : Tx.t) :
  holdings (position_for m tx) = holdings_of m (Tx.yahooTicker tx).
Proof.
  unfold position_for, holdings_of.
  destruct (JsObject.get m (Tx.yahooTicker tx)); reflexivity.
Qed.

Lemma holdings_of_process_tx (m : JsObject.t Position.t) (tx : Tx.t)
    (t : string) :
  holdings_of (process_tx m tx) t
    = if String.eqb (Tx.yahooTicker tx) t
      then holdings (record_tx tx (position_for m tx))
      else holdings_of m t.
Proof.
  destruct (String.eqb (Tx.yahooTicker tx) t) eqn:E.
  - apply String.eqb_eq in E. subst t. unfold holdings_of at 1.
    rewrite process_tx_same. reflexivity.
  - unfold holdings_of. rewrite process_tx_other; [reflexivity|].
    intro Heq. subst t. rewrite String.eqb_refl in E. discriminate.
Qed.

(** The rest of the fold only looks at the holdings. *)
Lemma holdings_of_fold (l : list Tx.t) (m m' : JsObject.t Position.t) :
  (forall t, holdings_of m t = holdings_of m' t) ->
  forall t, holdings_of (fold_left process_tx l m) t
            = holdings_of (fold_left process_tx l m') t.
Proof.
  revert m m'. induction l as [|x l IH]; intros m m' H t; simpl.
  - apply H.
  - apply IH. intro t'. rewrite !holdings_of_process_tx.
    destruct (String.eqb (Tx.yahooTicker x) t'); [|apply H].
    apply holdings_record_tx. rewrite !holdings_position_for. apply H.
Qed.

Lemma calculatePositions_insert (l1 l2 : list Tx.t) (tx : Tx.t) :
  calculatePositions (l1 ++ tx :: l2)
    = fold_left process_tx l2 (process_tx (calculatePositions l1) tx).
Proof. unfold calculatePositions. rewrite fold_left_app. reflexivity. Qed.

Lemma calculatePositions_app (l1 l2 : list Tx.t) :
  calculatePositions (l1 ++ l2)
    = fold_left process_tx l2 (calculatePositions l1).
Proof. unfold calculatePositions. rewrite fold_left_app. reflexivity. Qed.

Lemma holdings_of_unrecognised (m : JsObject.t Position.t) (tx : Tx.t)
    (t : string) :
  recognised (Tx.type tx) = false ->
  holdings_of (process_tx m tx) t = holdings_of m t.
Proof.
  intro Hk. rewrite holdings_of_process_tx.
  destruct (String.eqb (Tx.yahooTicker tx) t) eqn:E; [|reflexivity].
  apply String.eqb_eq in E. subst t.
  rewrite (record_tx_unrecognised tx _ Hk). apply holdings_position_for.
Qed.

(** C8: a transaction whose kind is neither buy nor sell leaves every
    existing position as it was, creates at most a position without lots and
    with quantity 0, and can be dropped from the sequence without changing
    the quantity or the lots of any position. *)
Theorem unrecognised_kind_is_noop (tx : Tx.t) :
  recognised (Tx.type tx) = false ->
  (forall m t pos,
     JsObject.get m t = Some pos ->
     JsObject.get (process_tx m tx) t = Some pos) /\
  (forall m,
     JsObject.get m (Tx.yahooTicker tx) = None ->
     JsObject.get (process_tx m tx) (Tx.yahooTicker tx)
       = Some (new_position tx)) /\
  (forall l1 l2 t,
     holdings_of (calculatePositions (l1 ++ tx :: l2)) t
       = holdings_of (calculatePositions (l1 ++ l2)) t) /\
  (forall l1 l2 t pos,
     JsObject.get (calculatePositions (l1 ++ l2)) t = Some pos ->
     exists pos',
       JsObject.get (calculatePositions (l1 ++ tx :: l2)) t = Some pos' /\
       holdings pos' = holdings pos) /\
  (forall l1 l2 t pos',
     JsObject.get (calculatePositions (l1 ++ tx :: l2)) t = Some pos' ->
     (exists pos,
        JsObject.get (calculatePositions (l1 ++ l2)) t = Some pos /\
        holdings pos' = holdings pos) \/
     (JsObject.get (calculatePositions (l1 ++ l2)) t = None /\
      t = Tx.yahooTicker tx /\ holdings pos' = (0, [], []))).
Proof.
  intro Hk.
  assert (Hseq : forall l1 l2 t,
             holdings_of (calculatePositions (l1 ++ tx :: l2)) t
             = holdings_of (calculatePositions (l1 ++ l2)) t).
  { intros l1 l2 t. rewrite calculatePositions_insert, calculatePositions_app.
    apply holdings_of_fold. intro t'. apply holdings_of_unrecognised. exact Hk. }
  split; [|split; [|split; [exact Hseq|split]]].
  - intros m t pos H.
    destruct (String.eqb (Tx.yahooTicker tx) t) eqn:E.
    + apply String.eqb_eq in E. subst t. rewrite process_tx_same.
      rewrite (record_tx_unrecognised tx _ Hk). unfold position_for.
      rewrite H. reflexivity.
    + rewrite process_tx_other; [exact H|].
      intro Heq. subst t. rewrite String.eqb_refl in E. discriminate.
  - intros m H. rewrite process_tx_same.
    rewrite (record_tx_unrecognised tx _ Hk). unfold position_for.
    rewrite H. reflexivity.
  - intros l1 l2 t pos H.
    pose proof (calculatePositions_quantity (l1 ++ l2) t) as Hin.
    rewrite H in Hin. destruct Hin as [Hin _].
    destruct (running_quantity_exists (l1 ++ tx :: l2) t) as [pos' Hpos'].
    { rewrite map_app in *. apply in_app_or in Hin. apply in_or_app.
      destruct Hin as [Hin|Hin]; [left|right; right]; exact Hin. }
    exists pos'. split; [exact Hpos'|].
    pose proof (Hseq l1 l2 t) as Hh. unfold holdings_of in Hh.
    rewrite H, Hpos' in Hh. exact Hh.
  - intros l1 l2 t pos' H.
    pose proof (Hseq l1 l2 t) as Hh. unfold holdings_of in Hh. rewrite H in Hh.
    pose proof (calculatePositions_quantity (l1 ++ l2) t) as Hshort.
    destruct (JsObject.get (calculatePositions (l1 ++ l2)) t) as [pos|].
    + left. exists pos. split; [reflexivity|exact Hh].
    + right. split; [reflexivity|]. split; [|exact Hh].
      pose proof (calculatePositions_quantity (l1 ++ tx :: l2) t) as Hlong.
      rewrite H in Hlong. destruct Hlong as [Hin _].
      rewrite map_app in Hin, Hshort. apply in_app_or in Hin.
      destruct Hin as [Hin|[Hin|Hin]].
      * exfalso. apply Hshort. apply in_or_app. left. exact Hin.
      * symmetry. exact Hin.
      * exfalso. apply Hshort. apply in_or_app. right. exact Hin.
Qed.

Lemma unrecognised_kind_is_noop_witness :
  holdings_of
    (calculatePositions
       ([example_buy "A" "EUR" 1 1 None] ++ dividend_AAA
          :: [example_sell "A" "EUR" 1 1])) "AAA"
  = holdings_of
      (calculatePositions
         ([example_buy "A" "EUR" 1 1 None] ++ [example_sell "A" "EUR" 1 1]))
      "AAA".
Proof.
  destruct (unrecognised_kind_is_noop dividend_AAA) as (_ & _ & H & _).
  - reflexivity.
  - apply H.
Defined.

(** ** The pipeline *)

Lemma open_step_records (rates : JsObject.t num)
    (stockPrices : JsObject.t (option num)) (l : list Position.t)
    (acc : list OpenRecord.t) (totals : Totals) :
  fst (fold_left (open_step rates stockPrices) l (acc, totals))
    = acc ++ map (open_metrics rates stockPrices) l.
Proof.
  revert acc totals. induction l as [|pos l IH]; intros acc totals; simpl.
  - rewrite app_nil_r. reflexivity.
  - rewrite IH, <- app_assoc. reflexivity.
Qed.

Lemma closed_step_records (l : list Position.t) (acc : list ClosedRecord.t)
    (sum : num) :
  fst (fold_left closed_step l (acc, sum)) = acc ++ map closed_metrics l.
Proof.
  revert acc sum. induction l as [|pos l IH]; intros acc sum; simpl.
  - rewrite app_nil_r. reflexivity.
  - rewrite IH, <- app_assoc. reflexivity.
Qed.

(** What [init] renders for a sequence that is not empty. *)
Lemma init_rendered (market : string -> option num) (transactions : list Tx.t) :
  transactions <> [] ->
  exists rates stockPrices d,
    init market transactions = Rendered d /\
    Dashboard.openData d
      = map (set_portfolioPercent (totalPortfolioValue (Dashboard.totals d)))
          (map (open_metrics rates stockPrices)
             (fst (classify (calculatePositions transactions)))) /\
    Dashboard.closedData d
      = map closed_metrics (snd (classify (calculatePositions transactions))).
Proof.
  intro Hne. unfold init.
  destruct transactions as [|tx l]; [contradiction|].
  change (Nat.eqb (List.length (tx :: l)) 0) with false. cbv beta iota zeta.
  set (positions := calculatePositions (tx :: l)).
  set (rates := fetchExchangeRates market).
  set (stockPrices := fold_left _ _ JsObject.empty).
  destruct (classify positions) as [openPositions closedPositions] eqn:C.
  pose proof (open_step_records rates stockPrices openPositions []
                (mkTotals 0 0 0)) as Ho.
  pose proof (closed_step_records closedPositions [] 0) as Hc.
  destruct (fold_left (open_step rates stockPrices) openPositions
              ([], mkTotals 0 0 0)) as [openData totals].
  destruct (fold_left closed_step closedPositions ([], 0))
    as [closedData totalRealizedPL].
  simpl in Ho, Hc. subst openData closedData.
  exists rates, stockPrices. eexists. split; [reflexivity|].
  simpl. split; reflexivity.
Qed.



(** ** The percentage of an open position *)

Lemma plPercent_of_open_metrics (rates : JsObject.t num)
    (stockPrices : JsObject.t (option num)) (pos : Position.t) :
  OpenRecord.plPercent (open_metrics rates stockPrices pos)
    = match OpenRecord.pl (open_metrics rates stockPrices pos) with
      | Some p =>
          if gtb (invested pos) 0
          then Some ((p / invested pos) * hundred) else None
      | None => None
      end.
Proof. reflexivity. Qed.

(** C5: the percentage of an open position is null when [invested] is 0,
    also with a known result, and it is [(pl / invested) * 100] exactly when
    the result is known and [invested > 0]; a percentage that is not null was
    computed with a divisor that is not zero.  The same holds of every record
    of the open table that [init] renders. *)
Theorem plPercent_guarded (rates : JsObject.t num)
    (stockPrices : JsObject.t (option num)) (pos : Position.t) :
  let d := open_metrics rates stockPrices pos in
  (invested pos = 0 -> OpenRecord.plPercent d = None) /\
  (forall p, OpenRecord.pl d = Some p -> 0 < invested pos ->
     OpenRecord.plPercent d = Some ((p / invested pos) * hundred)) /\
  (forall v, OpenRecord.plPercent d = Some v ->
     0 < invested pos /\ invested pos <> 0 /\
     exists p, OpenRecord.pl d = Some p /\ v = (p / invested pos) * hundred) /\
  (forall market transactions dash r,
     init market transactions = Rendered dash ->
     In r (Dashboard.openData dash) ->
     exists rates' stockPrices' pos',
       In pos' (fst (classify (calculatePositions transactions))) /\
       OpenRecord.pl r
         = OpenRecord.pl (open_metrics rates' stockPrices' pos') /\
       OpenRecord.plPercent r
         = OpenRecord.plPercent (open_metrics rates' stockPrices' pos')).
Proof.
  intro d. subst d. rewrite plPercent_of_open_metrics.
  split; [|split; [|split]].
  - intro H0. destruct (OpenRecord.pl _); [|reflexivity].
    assert (G : gtb (invested pos) 0 = false).
    { apply gtb_false_iff. rewrite H0. apply Qcle_refl. }
    rewrite G. reflexivity.
  - intros p Hp Hpos. rewrite Hp.
    apply gtb_true_iff in Hpos. rewrite Hpos. reflexivity.
  - intros v Hv.
    destruct (OpenRecord.pl _) as [p|]; [|discriminate Hv].
    destruct (gtb (invested pos) 0) eqn:G; [|discriminate Hv].
    apply gtb_true_iff in G. split; [exact G|]. split.
    + intro H0. rewrite H0 in G. exact (Qclt_not_le _ _ G (Qcle_refl 0)).
    + exists p. split; [reflexivity|]. congruence.
  - intros market transactions dash r Hr Hin.
    destruct transactions as [|tx l]; [discriminate Hr|].
    destruct (init_rendered market (tx :: l))
      as (rates' & stockPrices' & d & Hd & Ho & _); [discriminate|].
    rewrite Hd in Hr. injection Hr as Hr. subst dash.
    rewrite Ho in Hin. apply in_map_iff in Hin.
    destruct Hin as (r0 & Hr0 & Hin). apply in_map_iff in Hin.
    destruct Hin as (pos' & Hpos' & Hin). subst r0 r.
    exists rates', stockPrices', pos'. split; [exact Hin|].
    split; reflexivity.
Qed.

Lemma plPercent_guarded_witness :
  OpenRecord.pl (open_metrics [("EUR", 1)] [("FREE.AS", Some (num_of_Z 3))]
                   free_shares) = Some (num_of_Z 15) /\
  OpenRecord.plPercent
    (open_metrics [("EUR", 1)] [("FREE.AS", Some (num_of_Z 3))] free_shares)
  = None.
Proof.
  split.
  - simpl. apply f_equal. apply Qc_is_canon. reflexivity.
  - destruct (plPercent_guarded [("EUR", 1)]
                [("FREE.AS", Some (num_of_Z 3))] free_shares) as (H & _).
    apply H. apply Qc_is_canon. reflexivity.
Defined.

(** * Further properties of the code *)

(** ** The rate table *)

Lemma fetch_rate_set (market : string -> option num)
    (rates : JsObject.t num) (currency ticker : string) :
  fetch_rate market rates (currency, ticker)
    = JsObject.set rates currency
        (or_default (fetchYahooPrice market ticker)
           (or_default (JsObject.get fallbacks currency) 1)).
Proof.
  unfold fetch_rate.
  destruct (fetchYahooPrice market ticker) as [rate|]; [|reflexivity].
  cbn [or_default]. unfold num_or at 1.
  destruct (truthy rate); reflexivity.
Qed.

Lemma fetchExchangeRates_table (market : string -> option num) :
  fetchExchangeRates market
    = [("EUR", 1);
       ("GBP", or_default (fetchYahooPrice market "GBPEUR=X") (Q2Qc (117 # 100)));
       ("USD", or_default (fetchYahooPrice market "USDEUR=X") (Q2Qc (92 # 100)));
       ("SEK", or_default (fetchYahooPrice market "SEKEUR=X") (Q2Qc (88 # 1000)));
       ("PLN", or_default (fetchYahooPrice market "PLNEUR=X") (Q2Qc (23 # 100)))].
Proof.
  unfold fetchExchangeRates, EXCHANGE_RATE_TICKERS. cbn [fold_left].
  rewrite !fetch_rate_set. reflexivity.
Qed.

Lemma or_default_nonzero (v : option num) (d : num) :
  d <> 0 -> or_default v d <> 0.
Proof.
  intro Hd. unfold or_default, num_or. destruct v as [x|]; [|exact Hd].
  destruct (truthy x) eqn:T; [|exact Hd]. apply truthy_true_iff. exact T.
Qed.

Lemma fetchYahooPrice_nonzero (market : string -> option num)
    (ticker : string) (p : num) :
  fetchYahooPrice market ticker = Some p -> p <> 0.
Proof.
  unfold fetchYahooPrice. destruct (market ticker) as [q|]; [|discriminate].
  destruct (truthy q) eqn:T; [|discriminate].
  intro H. injection H as H. subst q. apply truthy_true_iff. exact T.
Qed.

(** X1: whatever the price source answers, the rate table has exactly the
    five codes, EUR at 1, each other code at the quoted rate when there is a
    non-zero one and at its fallback constant otherwise, and no rate of the
    table is 0. *)
Theorem fetchExchangeRates_complete (market : string -> option num) :
  let rates := fetchExchangeRates market in
  JsObject.keys rates = ["EUR"; "GBP"; "USD"; "SEK"; "PLN"] /\
  JsObject.get rates "EUR" = Some 1 /\
  (forall currency ticker fallback,
     In (currency, ticker, fallback)
       [("GBP", "GBPEUR=X", Q2Qc (117 # 100));
        ("USD", "USDEUR=X", Q2Qc (92 # 100));
        ("SEK", "SEKEUR=X", Q2Qc (88 # 1000));
        ("PLN", "PLNEUR=X", Q2Qc (23 # 100))] ->
     JsObject.get rates currency
       = Some (match market ticker with
               | Some p => if truthy p then p else fallback
               | None => fallback
               end)) /\
  (forall currency rate, JsObject.get rates currency = Some rate -> rate <> 0).
Proof.
  intro rates. subst rates. rewrite fetchExchangeRates_table.
  split; [reflexivity|]. split; [reflexivity|]. split.
  - intros currency ticker fallback Hin. simpl in Hin.
    repeat (destruct Hin as [Hin|Hin];
            [injection Hin as <- <- <-; simpl; unfold fetchYahooPrice;
             destruct (market _) as [p|]; [|reflexivity];
             unfold or_default, num_or;
             destruct (truthy p) eqn:T; [rewrite T|]; reflexivity|]).
    contradiction.
  - intros currency rate H. simpl in H.
    repeat match type of H with
           | (if ?b then _ else _) = _ => destruct b
           end;
      try discriminate H; injection H as <-;
      try (apply or_default_nonzero; intro H; discriminate H).
    intro H. discriminate H.
Qed.

(** ** Conversion *)

Lemma hundred_nonzero : hundred <> 0.
Proof. intro H. discriminate H. Qed.





Lemma upper_ascii_idempotent (c : ascii) :
  upper_ascii (upper_ascii c) = upper_ascii c.
Proof.
  destruct c as [[] [] [] [] [] [] [] []]; reflexivity.
Qed.

Lemma toUpperCase_idempotent (s : string) :
  toUpperCase (toUpperCase s) = toUpperCase s.
Proof.
  induction s as [|c r IH]; simpl; [reflexivity|].
  rewrite upper_ascii_idempotent, IH. reflexivity.
Qed.

(** X3: apart from the pence code, the case of the currency code does not
    matter: a code that neither is nor upper-cases to ['GBX'] converts like
    its upper-case form. *)
Theorem convertToEUR_case_insensitive (price : option num)
    (localCurrency : string) (rates : JsObject.t num) :
  toUpperCase localCurrency <> "GBX" ->
  convertToEUR price localCurrency rates
    = convertToEUR price (toUpperCase localCurrency) rates.
Proof.
  intro Hup. unfold convertToEUR. destruct price as [p|]; [|reflexivity].
  assert (E1 : String.eqb localCurrency "GBX" = false).
  { apply String.eqb_neq. intro H. apply Hup. rewrite H. reflexivity. }
  assert (E2 : String.eqb (toUpperCase localCurrency) "GBX" = false).
  { apply String.eqb_neq. exact Hup. }
  rewrite E1, E2. cbv zeta. rewrite toUpperCase_idempotent. reflexivity.
Qed.

Lemma convertToEUR_case_insensitive_witness :
  convertToEUR (Some (num_of_Z 5)) "usd" [("USD", num_of_Z 2)]
    = convertToEUR (Some (num_of_Z 5)) "USD" [("USD", num_of_Z 2)].
Proof.
  apply (convertToEUR_case_insensitive (Some (num_of_Z 5)) "usd"
           [("USD", num_of_Z 2)]).
  intro H. discriminate H.
Defined.

Lemma getCurrencyFromTicker_range (ticker : string) :
  In (getCurrencyFromTicker ticker) ["GBX"; "EUR"; "SEK"; "PLN"; "USD"].
Proof.
  unfold getCurrencyFromTicker.
  repeat match goal with
         | |- context [if ?b then _ else _] => destruct b
         end; simpl; auto 6.
Qed.

Lemma truthy_or_default (v : option num) (d : num) :
  d <> 0 -> truthy (or_default v d) = true.
Proof.
  intro Hd. apply truthy_true_iff. apply or_default_nonzero. exact Hd.
Qed.

Lemma convert_with_rate (p : num) (code : string) (rates : JsObject.t num)
    (rate : num) :
  String.eqb code "GBX" = false ->
  String.eqb (toUpperCase code) "EUR" = false ->
  JsObject.get rates (toUpperCase code) = Some rate ->
  rate <> 0 ->
  convertToEUR (Some p) code rates = Some (p * rate).
Proof.
  intros E1 E2 G Hr. unfold convertToEUR. rewrite E1. cbv zeta.
  rewrite E2, G. apply truthy_true_iff in Hr. rewrite Hr. reflexivity.
Qed.

Lemma pipeline_conversion_factor_exists (market : string -> option num)
    (ticker : string) :
  exists factor, forall p,
    convertToEUR (Some p) (getCurrencyFromTicker ticker)
      (fetchExchangeRates market) = Some (p * factor).
Proof.
  rewrite fetchExchangeRates_table.
  pose proof (getCurrencyFromTicker_range ticker) as Hr. simpl in Hr.
  destruct Hr as [<-|[<-|[<-|[<-|[<-|[]]]]]].
  - set (gbp := or_default (fetchYahooPrice market "GBPEUR=X") (Q2Qc (117 # 100))).
    assert (Hg : gbp <> 0) by (apply or_default_nonzero; intro H; discriminate H).
    exists (gbp / hundred). intro p.
    unfold convertToEUR. simpl String.eqb. cbv iota.
    simpl JsObject.get. rewrite (or_default_some gbp gbp_fallback Hg).
    f_equal. field. exact hundred_nonzero.
  - exists 1. intro p. simpl. f_equal. ring.
  - eexists. intro p. apply convert_with_rate; try reflexivity.
    apply or_default_nonzero. intro H. discriminate H.
  - eexists. intro p. apply convert_with_rate; try reflexivity.
    apply or_default_nonzero. intro H. discriminate H.
  - eexists. intro p. apply convert_with_rate; try reflexivity.
    apply or_default_nonzero. intro H. discriminate H.
Qed.


(** ** Lots, names and the order of the positions *)

Lemma lots_record_tx (tx : Tx.t) (pos : Position.t) :
  Position.buys (record_tx tx pos)
    = Position.buys pos
      ++ (if String.eqb (Tx.type tx) "buy" then [lot_of tx] else []) /\
  Position.sells (record_tx tx pos)
    = Position.sells pos
      ++ (if String.eqb (Tx.type tx) "sell" then [lot_of tx] else []).
Proof.
  unfold record_tx.
  destruct (String.eqb (Tx.type tx) "buy") eqn:Eb.
  - apply String.eqb_eq in Eb. rewrite Eb. simpl.
    rewrite app_nil_r. split; reflexivity.
  - destruct (String.eqb (Tx.type tx) "sell"); simpl;
      rewrite ?app_nil_r; split; reflexivity.
Qed.

Lemma filter_of_kind_unseen (kind t : string) (l : list Tx.t) :
  ~ In t (map Tx.yahooTicker l) -> filter (of_kind kind t) l = [].
Proof.
  intro H. induction l as [|tx l IH]; [reflexivity|].
  simpl in *. unfold of_kind at 1.
  destruct (String.eqb (Tx.yahooTicker tx) t) eqn:E.
  - apply String.eqb_eq in E. exfalso. apply H. left. exact E.
  - simpl. apply IH. intro Hin. apply H. right. exact Hin.
Qed.

Lemma lots_calculatePositions (transactions : list Tx.t) (t : string)
    (pos : Position.t) :
  JsObject.get (calculatePositions transactions) t = Some pos ->
  Position.buys pos = map lot_of (filter (of_kind "buy" t) transactions) /\
  Position.sells pos = map lot_of (filter (of_kind "sell" t) transactions).
Proof.
  revert pos.
  induction transactions as [|tx l IH] using rev_ind; intros pos H.
  - discriminate H.
  - rewrite calculatePositions_snoc in H. rewrite !filter_app, !map_app.
    simpl filter. unfold of_kind at 2 4.
    destruct (String.eqb (Tx.yahooTicker tx) t) eqn:E.
    + apply String.eqb_eq in E. subst t. rewrite process_tx_same in H.
      injection H as <-.
      destruct (lots_record_tx tx (position_for (calculatePositions l) tx))
        as [Hb Hs].
      rewrite Hb, Hs. simpl andb. unfold position_for.
      pose proof (calculatePositions_quantity l (Tx.yahooTicker tx)) as Q.
      destruct (JsObject.get (calculatePositions l) (Tx.yahooTicker tx))
        as [p|].
      * destruct (IH p eq_refl) as [IHb IHs]. rewrite IHb, IHs.
        split; f_equal;
          [destruct (String.eqb (Tx.type tx) "buy")
          |destruct (String.eqb (Tx.type tx) "sell")]; reflexivity.
      * rewrite !(filter_of_kind_unseen _ _ _ Q). simpl.
        split;
          [destruct (String.eqb (Tx.type tx) "buy")
          |destruct (String.eqb (Tx.type tx) "sell")]; reflexivity.
    + simpl. rewrite !app_nil_r. apply IH.
      rewrite process_tx_other in H; [exact H|].
      intro Heq. subst t. rewrite String.eqb_refl in E. discriminate.
Qed.

(** X5: the buy lots of a position are the lots of the buy transactions of
    its ticker, one per transaction and in the order of the sequence, and
    likewise the sell lots; transactions of other tickers or kinds leave no
    lot. *)
Theorem lots_of_position (transactions : list Tx.t) (t : string)
    (pos : Position.t) :
  JsObject.get (calculatePositions transactions) t = Some pos ->
  Position.buys pos = map lot_of (filter (of_kind "buy" t) transactions) /\
  Position.sells pos = map lot_of (filter (of_kind "sell" t) transactions) /\
  (List.length (Position.buys pos) + List.length (Position.sells pos))%nat
    = List.length
        (filter (fun tx => (String.eqb (Tx.yahooTicker tx) t
                            && recognised (Tx.type tx))%bool) transactions).
Proof.
  intro H. destruct (lots_calculatePositions transactions t pos H) as [Hb Hs].
  split; [exact Hb|]. split; [exact Hs|].
  rewrite Hb, Hs, !length_map. clear.
  set (fb := of_kind "buy" t). set (fs := of_kind "sell" t).
  set (fr := fun tx => (String.eqb (Tx.yahooTicker tx) t
                        && recognised (Tx.type tx))%bool).
  induction transactions as [|tx l IH]; [reflexivity|].
  cbn [filter].
  assert (E : (fb tx, fs tx, fr tx) = (true, false, true)
              \/ (fb tx, fs tx, fr tx) = (false, true, true)
              \/ (fb tx, fs tx, fr tx) = (false, false, false)).
  { unfold fb, fs, fr, of_kind, recognised.
    destruct (String.eqb (Tx.yahooTicker tx) t); [|auto].
    destruct (String.eqb (Tx.type tx) "buy") eqn:Eb.
    - apply String.eqb_eq in Eb. rewrite Eb. auto.
    - destruct (String.eqb (Tx.type tx) "sell"); auto. }
  destruct E as [E|[E|E]]; injection E as -> -> ->; cbn [List.length]; lia.
Qed.

Lemma lots_of_position_witness :
  exists pos,
    JsObject.get
      (calculatePositions
         [example_buy "A" "EUR" 1 1 None; dividend_AAA;
          example_sell "A" "EUR" 1 1]) "AAA" = Some pos /\
    Position.buys pos = [lot_of (example_buy "A" "EUR" 1 1 None)] /\
    Position.sells pos = [lot_of (example_sell "A" "EUR" 1 1)].
Proof.
  eexists. split; [reflexivity|].
  destruct (lots_of_position
              [example_buy "A" "EUR" 1 1 None; dividend_AAA;
               example_sell "A" "EUR" 1 1] "AAA" _ eq_refl) as (Hb & Hs & _).
  split; [exact Hb|exact Hs].
Defined.





Lemma existsb_eqb_In (k : string) (l : list string) :
  existsb (String.eqb k) l = true <-> In k l.
Proof.
  rewrite existsb_exists. split.
  - intros (x & Hin & E). apply String.eqb_eq in E. subst x. exact Hin.
  - intro Hin. exists k. split; [exact Hin|apply String.eqb_refl].
Qed.

Lemma keys_set_eq {V} (o : JsObject.t V) (k : string) (v : V) :
  JsObject.keys (JsObject.set o k v)
    = if existsb (String.eqb k) (JsObject.keys o)
      then JsObject.keys o else JsObject.keys o ++ [k].
Proof.
  unfold JsObject.keys.
  induction o as [|[k0 v0] r IH]; [reflexivity|].
  cbn [JsObject.set map fst existsb].
  destruct (String.eqb k k0) eqn:E; cbn [map fst orb]; [reflexivity|].
  rewrite IH.
  destruct (existsb (String.eqb k) (map fst r)); reflexivity.
Qed.

Lemma get_None_existsb {V} (o : JsObject.t V) (k : string) :
  JsObject.get o k = None <-> existsb (String.eqb k) (JsObject.keys o) = false.
Proof.
  induction o as [|[k0 v0] r IH]; simpl; [tauto|].
  destruct (String.eqb k k0); simpl; [split; discriminate|exact IH].
Qed.

Lemma keys_process_tx (m : JsObject.t Position.t) (tx : Tx.t) :
  JsObject.keys (process_tx m tx)
    = if existsb (String.eqb (Tx.yahooTicker tx)) (JsObject.keys m)
      then JsObject.keys m else JsObject.keys m ++ [Tx.yahooTicker tx].
Proof.
  unfold process_tx.
  destruct (JsObject.get m (Tx.yahooTicker tx)) as [pos|] eqn:G.
  - rewrite G, keys_set_eq.
    destruct (existsb (String.eqb (Tx.yahooTicker tx)) (JsObject.keys m)) eqn:E;
      [reflexivity|].
    apply get_None_existsb in E. congruence.
  - rewrite get_set_same, !keys_set_eq.
    apply get_None_existsb in G. rewrite G.
    rewrite existsb_app. simpl. rewrite String.eqb_refl, orb_true_r.
    reflexivity.
Qed.

Lemma keys_fold_process_tx (l : list Tx.t) (m : JsObject.t Position.t)
    (seen : list string) :
  (forall k, existsb (String.eqb k) seen
             = existsb (String.eqb k) (JsObject.keys m)) ->
  JsObject.keys (fold_left process_tx l m)
    = JsObject.keys m ++ unique_from seen (map Tx.yahooTicker l).
Proof.
  revert m seen. induction l as [|x l IH]; intros m seen Hseen; simpl.
  - rewrite app_nil_r. reflexivity.
  - rewrite Hseen.
    destruct (existsb (String.eqb (Tx.yahooTicker x)) (JsObject.keys m)) eqn:E.
    + rewrite (IH (process_tx m x) seen).
      * rewrite keys_process_tx, E. reflexivity.
      * intro k. rewrite keys_process_tx, E. apply Hseen.
    + rewrite (IH (process_tx m x) (Tx.yahooTicker x :: seen)).
      * rewrite keys_process_tx, E, <- app_assoc. reflexivity.
      * intro k. rewrite keys_process_tx, E, existsb_app. simpl.
        rewrite Hseen, orb_false_r. apply orb_comm.
Qed.




(** ** The prices of the pipeline *)

Lemma unique_from_In (seen l : list string) (t : string) :
  In t (unique_from seen l) <-> In t l /\ ~ In t seen.
Proof.
  revert seen. induction l as [|x l IH]; intro seen; simpl.
  - tauto.
  - destruct (existsb (String.eqb x) seen) eqn:E.
    + apply existsb_eqb_In in E. rewrite IH. split.
      * intros [H1 H2]. auto.
      * intros [[H|H] H2]; [subst; contradiction|auto].
    + assert (Hx : ~ In x seen).
      { intro H. apply existsb_eqb_In in H. congruence. }
      simpl. rewrite IH. simpl. split.
      * intros [H|[H1 H2]]; [subst; auto|]. split; [auto|]. intro H. apply H2. auto.
      * intros [[H|H] H2]; [auto|].
        destruct (string_dec x t) as [->|Hne]; [auto|].
        right. split; [exact H|]. intros [H3|H3]; contradiction.
Qed.

Lemma tickers_of_In (transactions : list Tx.t) (t : string) :
  In t (tickers_of transactions) <-> In t (map Tx.yahooTicker transactions).
Proof.
  unfold tickers_of, unique. rewrite unique_from_In. simpl. tauto.
Qed.

Lemma get_stored {V} (f : string -> V) (l : list string) (o : JsObject.t V)
    (t : string) :
  JsObject.get
    (fold_left (fun o '(k, v) => JsObject.set o k v) (combine l (map f l)) o) t
  = if existsb (String.eqb t) l then Some (f t) else JsObject.get o t.
Proof.
  revert o. induction l as [|x l IH]; intro o; simpl; [reflexivity|].
  rewrite IH. destruct (existsb (String.eqb t) l); [rewrite orb_true_r; reflexivity|].
  rewrite orb_false_r. destruct (String.eqb t x) eqn:E.
  - apply String.eqb_eq in E. subst x. apply get_set_same.
  - apply get_set_other. intro H. subst x. rewrite String.eqb_refl in E.
    discriminate.
Qed.

Lemma price_of_stockPrices (market : string -> option num)
    (transactions : list Tx.t) (t : string) :
  price_of (stockPrices_of market transactions) t
    = if existsb (String.eqb t) (map Tx.yahooTicker transactions)
      then fetchYahooPrice market t else None.
Proof.
  unfold price_of, stockPrices_of. rewrite get_stored.
  destruct (existsb (String.eqb t) (tickers_of transactions)) eqn:E;
    destruct (existsb (String.eqb t) (map Tx.yahooTicker transactions)) eqn:E';
    try reflexivity; exfalso.
  - apply existsb_eqb_In, tickers_of_In, existsb_eqb_In in E. congruence.
  - apply existsb_eqb_In, tickers_of_In, existsb_eqb_In in E'. congruence.
Qed.

(** What [init] renders, with the rates and the prices spelled out. *)
Lemma init_rendered_explicit (market : string -> option num)
    (transactions : list Tx.t) :
  transactions <> [] ->
  let rates := fetchExchangeRates market in
  let stockPrices := stockPrices_of market transactions in
  let openPositions := fst (classify (calculatePositions transactions)) in
  let closedPositions := snd (classify (calculatePositions transactions)) in
  exists d,
    init market transactions = Rendered d /\
    Dashboard.totals d
      = snd (fold_left (open_step rates stockPrices) openPositions
               ([], mkTotals 0 0 0)) /\
    Dashboard.openData d
      = map (set_portfolioPercent (totalPortfolioValue (Dashboard.totals d)))
          (map (open_metrics rates stockPrices) openPositions) /\
    Dashboard.closedData d = map closed_metrics closedPositions /\
    Dashboard.totalRealizedPL d
      = snd (fold_left closed_step closedPositions ([], 0)).
Proof.
  intros Hne rates stockPrices openPositions closedPositions.
  subst rates stockPrices openPositions closedPositions.
  unfold init, stockPrices_of, tickers_of.
  destruct transactions as [|tx l]; [contradiction|].
  change (Nat.eqb (List.length (tx :: l)) 0) with false. cbv beta iota zeta.
  set (positions := calculatePositions (tx :: l)).
  set (rates := fetchExchangeRates market).
  set (stockPrices := fold_left _ _ JsObject.empty).
  destruct (classify positions) as [openPositions closedPositions] eqn:C.
  pose proof (open_step_records rates stockPrices openPositions []
                (mkTotals 0 0 0)) as Ho.
  pose proof (closed_step_records closedPositions [] 0) as Hc.
  cbn [fst snd].
  destruct (fold_left (open_step rates stockPrices) openPositions
              ([], mkTotals 0 0 0)) as [openData totals].
  destruct (fold_left closed_step closedPositions ([], 0))
    as [closedData totalRealizedPL].
  simpl in Ho, Hc. subst openData closedData.
  eexists. split; [reflexivity|]. simpl. repeat split; reflexivity.
Qed.

(** X8: every record of the open table carries the quote of its own ticker:
    its price in EUR is the conversion, with the currency of the ticker's
    suffix and the fetched rates, of what [fetchYahooPrice] gave for that
    ticker; it is null exactly when the quote is missing, and its ticker is
    one of the sequence. *)
Theorem open_record_price (market : string -> option num)
    (transactions : list Tx.t) (dash : Dashboard.t) (r : OpenRecord.t) :
  init market transactions = Rendered dash ->
  In r (Dashboard.openData dash) ->
  In (OpenRecord.ticker r) (map Tx.yahooTicker transactions) /\
  OpenRecord.currentPriceEUR r
    = convertToEUR (fetchYahooPrice market (OpenRecord.ticker r))
        (getCurrencyFromTicker (OpenRecord.ticker r))
        (fetchExchangeRates market) /\
  (OpenRecord.currentPriceEUR r = None
   <-> fetchYahooPrice market (OpenRecord.ticker r) = None).
Proof.
  intros Hr Hin.
  destruct transactions as [|tx l]; [discriminate Hr|].
  destruct (init_rendered_explicit market (tx :: l))
    as (d & Hd & _ & Ho & _); [discriminate|].
  rewrite Hd in Hr. injection Hr as <-.
  rewrite Ho in Hin. apply in_map_iff in Hin.
  destruct Hin as (r0 & <- & Hin). apply in_map_iff in Hin.
  destruct Hin as (pos & <- & Hin).
  apply In_open in Hin. destruct Hin as [Hv _].
  pose proof (seen_of_position _ _ Hv) as Hseen.
  assert (E : OpenRecord.currentPriceEUR
                (set_portfolioPercent (totalPortfolioValue (Dashboard.totals d))
                   (open_metrics (fetchExchangeRates market)
                      (stockPrices_of market (tx :: l)) pos))
              = convertToEUR (fetchYahooPrice market (Position.ticker pos))
                  (getCurrencyFromTicker (Position.ticker pos))
                  (fetchExchangeRates market)).
  { cbn [set_portfolioPercent open_metrics OpenRecord.currentPriceEUR].
    rewrite price_of_stockPrices.
    apply existsb_eqb_In in Hseen. rewrite Hseen. reflexivity. }
  split; [exact Hseen|]. split; [exact E|].
  cbn [set_portfolioPercent open_metrics OpenRecord.ticker] in *.
  rewrite E.
  destruct (fetchYahooPrice market (Position.ticker pos)) as [p|].
  - destruct (pipeline_conversion_factor_exists market (Position.ticker pos))
      as (factor & H).
    rewrite H. split; discriminate.
  - split; reflexivity.
Qed.

Lemma open_record_price_witness :
  forall_open_records
    (init (fun _ => Some (num_of_Z 3))
       [example_buy "A" "EUR" 1 1 None])
    (fun r => OpenRecord.currentPriceEUR r <> None).
Proof.
  unfold forall_open_records.
  destruct (init (fun _ => Some (num_of_Z 3)) [example_buy "A" "EUR" 1 1 None])
    as [|dash] eqn:E; [exact I|].
  intros r Hin H.
  apply (open_record_price (fun _ => Some (num_of_Z 3))
           [example_buy "A" "EUR" 1 1 None] dash r E Hin) in H.
  discriminate H.
Defined.

(** ** Average prices *)





Lemma positive_nonzero (x : num) : 0 < x -> x <> 0.
Proof. intros H E. rewrite E in H. exact (Qclt_not_le _ _ H (Qcle_refl 0)). Qed.









(** ** Closed positions *)






(** ** The totals of the dashboard *)







(** ** Portfolio weights *)




(** ** Results of an open position *)

(** X15: an open record has a current value, a result and (with a positive
    [invested]) a percentage exactly when it has a price; the value is price
    times quantity and the result is the value minus [invested]; a price
    equal to the average buy price gives a result and a percentage of 0. *)
Theorem open_record_results (rates : JsObject.t num)
    (stockPrices : JsObject.t (option num)) (pos : Position.t) :
  let d := open_metrics rates stockPrices pos in
  (OpenRecord.currentPriceEUR d = None ->
   OpenRecord.currentValue d = None /\ OpenRecord.pl d = None /\
   OpenRecord.plPercent d = None) /\
  (forall price, OpenRecord.currentPriceEUR d = Some price ->
     OpenRecord.currentValue d = Some (price * Position.currentQuantity pos) /\
     OpenRecord.pl d
       = Some (price * Position.currentQuantity pos - invested pos)) /\
  (OpenRecord.currentPriceEUR d = Some (OpenRecord.avgBuyPrice d) ->
   OpenRecord.pl d = Some 0 /\
   (0 < invested pos -> OpenRecord.plPercent d = Some 0)).
Proof.
  intro d.
  assert (F1 : OpenRecord.currentValue d
               = match OpenRecord.currentPriceEUR d with
                 | Some p => Some (p * Position.currentQuantity pos)
                 | None => None
                 end) by reflexivity.
  assert (F2 : OpenRecord.pl d
               = match OpenRecord.currentValue d with
                 | Some v => Some (v - invested pos)
                 | None => None
                 end) by reflexivity.
  assert (F3 : OpenRecord.plPercent d
               = match OpenRecord.pl d with
                 | Some p =>
                     if gtb (invested pos) 0
                     then Some ((p / invested pos) * hundred) else None
                 | None => None
                 end) by reflexivity.
  assert (F4 : OpenRecord.avgBuyPrice d * Position.currentQuantity pos
               = invested pos) by reflexivity.
  clearbody d. split; [|split].
  - intro C. rewrite C in F1. rewrite F1 in F2. rewrite F2 in F3.
    repeat split; assumption.
  - intros price C. rewrite C in F1. rewrite F1 in F2.
    split; assumption.
  - intro C. rewrite C in F1. rewrite F1, F4 in F2.
    assert (Z : invested pos - invested pos = 0) by ring.
    rewrite Z in F2. split; [exact F2|].
    intro Hpos. rewrite F2 in F3. apply gtb_true_iff in Hpos.
    rewrite Hpos in F3. rewrite F3. apply f_equal. unfold Qcdiv. ring.
Qed.

Lemma open_record_results_witness :
  OpenRecord.pl
    (open_metrics [("EUR", 1)] [("AAA.AS", Some (num_of_Z 102))]
       {| Position.ticker := "AAA.AS"; Position.name := "A";
          Position.localCurrency := "EUR";
          Position.buys := [lot_of (example_buy "A" "EUR" 1 1 None)];
          Position.sells := [];
          Position.currentQuantity := num_of_Z 10 |}) = Some 0.
Proof.
  destruct (open_record_results [("EUR", 1)] [("AAA.AS", Some (num_of_Z 102))]
              {| Position.ticker := "AAA.AS"; Position.name := "A";
                 Position.localCurrency := "EUR";
                 Position.buys := [lot_of (example_buy "A" "EUR" 1 1 None)];
                 Position.sells := [];
                 Position.currentQuantity := num_of_Z 10 |}) as (_ & _ & H).
  destruct H as [H _]; [|exact H].
  simpl. apply f_equal. apply Qc_is_canon. reflexivity.
Defined.

(** ** The rows of the tables *)

Lemma insert_by_index_perm {V} (e : N * V) (l : list (N * V)) :
  Permutation (JsObject.insert_by_index e l) (e :: l).
Proof.
  induction l as [|e' r IH]; simpl; [apply Permutation_refl|].
  destruct (N.leb (fst e) (fst e')); [apply Permutation_refl|].
  apply Permutation_trans with (e' :: e :: r).
  - apply perm_skip. exact IH.
  - apply perm_swap.
Qed.

(** [Object.values] is a rearrangement of the values in creation order. *)
Lemma values_perm {V} (o : JsObject.t V) :
  Permutation (JsObject.values o) (map snd o).
Proof.
  unfold JsObject.values. induction o as [|[k v] r IH]; simpl.
  - apply Permutation_refl.
  - destruct (JsObject.array_index k) as [n|].
    + apply Permutation_trans
        with (map snd ((n, v) :: JsObject.indexed r) ++ JsObject.named r).
      * apply Permutation_app_tail. apply Permutation_map.
        apply insert_by_index_perm.
      * simpl. apply perm_skip. exact IH.
    + apply Permutation_trans
        with (v :: map snd (JsObject.indexed r) ++ JsObject.named r).
      * apply Permutation_sym. apply Permutation_middle.
      * apply perm_skip. exact IH.
Qed.

Lemma tickers_are_keys (transactions : list Tx.t) :
  map Position.ticker (map snd (calculatePositions transactions))
    = JsObject.keys (calculatePositions transactions).
Proof.
  unfold JsObject.keys. rewrite map_map.
  apply map_ext_in. intros [k pos] Hin. simpl.
  apply In_get in Hin; [|apply NoDup_keys_calculatePositions].
  exact (ticker_calculatePositions _ _ _ Hin).
Qed.

Lemma NoDup_tickers_of_values (transactions : list Tx.t) :
  NoDup (map Position.ticker
           (JsObject.values (calculatePositions transactions))).
Proof.
  apply (Permutation_NoDup
           (l := JsObject.keys (calculatePositions transactions))).
  - rewrite <- tickers_are_keys. apply Permutation_sym.
    apply Permutation_map. apply values_perm.
  - apply NoDup_keys_calculatePositions.
Qed.

Lemma classify_step_filter (l : list Position.t)
    (acc : list Position.t * list Position.t) :
  fold_left classify_step l acc
    = (fst acc ++ filter is_open l, snd acc ++ filter is_closed l).
Proof.
  revert acc. induction l as [|p l IH]; intros [o c]; simpl.
  - rewrite !app_nil_r. reflexivity.
  - rewrite IH. unfold is_open, is_closed.
    destruct (gtb (Position.currentQuantity p) 0); simpl.
    + rewrite <- app_assoc. reflexivity.
    + destruct (Nat.ltb 0 (List.length (Position.sells p))); simpl;
        rewrite <- ?app_assoc; reflexivity.
Qed.

Lemma classify_filter (m : JsObject.t Position.t) :
  classify m
    = (filter is_open (JsObject.values m),
       filter is_closed (JsObject.values m)).
Proof. unfold classify. rewrite classify_step_filter. reflexivity. Qed.

Lemma NoDup_map_filter {A B} (f : A -> B) (g : A -> bool) (l : list A) :
  NoDup (map f l) -> NoDup (map f (filter g l)).
Proof.
  induction l as [|x l IH]; simpl; intro H; [constructor|].
  inversion H as [|y ys Hnotin Hnd]; subst.
  destruct (g x); simpl; [|apply IH; exact Hnd].
  constructor; [|apply IH; exact Hnd].
  intro Hin. apply Hnotin. apply in_map_iff in Hin.
  destruct Hin as (z & Hz & Hin). apply filter_In in Hin.
  apply in_map_iff. exists z. split; [exact Hz|exact (proj1 Hin)].
Qed.

Lemma filter_exclusive_length {A} (f g : A -> bool) (l : list A) :
  (forall x, f x = true -> g x = false) ->
  (List.length (filter f l) + List.length (filter g l) <= List.length l)%nat.
Proof.
  intro H. induction l as [|x l IH]; simpl; [lia|].
  destruct (f x) eqn:F; [rewrite (H x F)|destruct (g x)]; simpl; lia.
Qed.

Lemma keys_calculatePositions (transactions : list Tx.t) :
  JsObject.keys (calculatePositions transactions) = tickers_of transactions.
Proof.
  unfold calculatePositions, tickers_of, unique.
  rewrite (keys_fold_process_tx transactions JsObject.empty []);
    [reflexivity|]. intro k. reflexivity.
Qed.

Lemma is_open_not_closed (pos : Position.t) :
  is_open pos = true -> is_closed pos = false.
Proof. unfold is_open, is_closed. intro H. rewrite H. reflexivity. Qed.

(** X16: the open table has one row per position of positive quantity and
    the closed table one row per position of quantity at most 0 with a sell
    lot, in the order of [Object.values]; no ticker has two rows in a table
    or a row in both, the two tables together have at most as many rows as
    there are distinct tickers, and every open row shows a positive
    quantity. *)
Theorem table_rows (market : string -> option num)
    (transactions : list Tx.t) (dash : Dashboard.t) :
  init market transactions = Rendered dash ->
  let positions := JsObject.values (calculatePositions transactions) in
  map OpenRecord.ticker (Dashboard.openData dash)
    = map Position.ticker (filter is_open positions) /\
  map ClosedRecord.ticker (Dashboard.closedData dash)
    = map Position.ticker (filter is_closed positions) /\
  NoDup (map OpenRecord.ticker (Dashboard.openData dash)) /\
  NoDup (map ClosedRecord.ticker (Dashboard.closedData dash)) /\
  (forall t, In t (map OpenRecord.ticker (Dashboard.openData dash)) ->
     ~ In t (map ClosedRecord.ticker (Dashboard.closedData dash))) /\
  (List.length (Dashboard.openData dash)
   + List.length (Dashboard.closedData dash)
   <= List.length (tickers_of transactions))%nat /\
  (forall r, In r (Dashboard.openData dash) -> 0 < OpenRecord.quantity r).
Proof.
  intros Hr positions. subst positions.
  destruct transactions as [|tx l]; [discriminate Hr|].
  destruct (init_rendered_explicit market (tx :: l))
    as (d & Hd & _ & Ho & Hc & _); [discriminate|].
  rewrite Hd in Hr. injection Hr as <-.
  rewrite classify_filter in Ho, Hc. cbn [fst snd] in Ho, Hc.
  set (vals := JsObject.values (calculatePositions (tx :: l))) in *.
  assert (Eo : map OpenRecord.ticker (Dashboard.openData d)
               = map Position.ticker (filter is_open vals)).
  { rewrite Ho, !map_map. reflexivity. }
  assert (Ec : map ClosedRecord.ticker (Dashboard.closedData d)
               = map Position.ticker (filter is_closed vals)).
  { rewrite Hc, !map_map. reflexivity. }
  pose proof (NoDup_tickers_of_values (tx :: l)) as Hnd. fold vals in Hnd.
  split; [exact Eo|]. split; [exact Ec|].
  rewrite Eo, Ec.
  split; [apply NoDup_map_filter; exact Hnd|].
  split; [apply NoDup_map_filter; exact Hnd|].
  split; [|split].
  - intros t Hin1 Hin2. apply in_map_iff in Hin1, Hin2.
    destruct Hin1 as (p & Hp & Hin1). destruct Hin2 as (q & Hq & Hin2).
    apply filter_In in Hin1, Hin2.
    destruct Hin1 as [Hv1 H1]. destruct Hin2 as [Hv2 H2].
    assert (p = q)
      by (apply (position_of_ticker (tx :: l) p q Hv1 Hv2); congruence).
    subst q. rewrite (is_open_not_closed p H1) in H2. discriminate H2.
  - rewrite Ho, Hc, !length_map.
    apply Nat.le_trans with (List.length vals).
    + apply filter_exclusive_length. exact is_open_not_closed.
    + unfold vals.
      rewrite (Permutation_length (values_perm (calculatePositions (tx :: l)))).
      rewrite length_map, <- keys_calculatePositions.
      unfold JsObject.keys. rewrite length_map. apply Nat.le_refl.
  - intros r Hin. rewrite Ho in Hin. apply in_map_iff in Hin.
    destruct Hin as (r0 & <- & Hin). apply in_map_iff in Hin.
    destruct Hin as (p & <- & Hin). apply filter_In in Hin.
    destruct Hin as [_ Hp]. apply gtb_true_iff in Hp. exact Hp.
Qed.

Lemma table_rows_witness :
  match init (fun _ => None)
          [example_buy "A" "EUR" 1 1 None; dividend_BBB] with
  | Rendered dash => NoDup (map OpenRecord.ticker (Dashboard.openData dash))
  | Failed _ => False
  end.
Proof.
  destruct (init (fun _ => None)
              [example_buy "A" "EUR" 1 1 None; dividend_BBB])
    as [|dash] eqn:E; [discriminate E|].
  destruct (table_rows (fun _ => None)
              [example_buy "A" "EUR" 1 1 None; dividend_BBB] dash E)
    as (_ & _ & H & _).
  exact H.
Defined.

(** ** The summary *)

(** X17: the summary adds the unrealised and the realised totals, and its
    percentage is that sum over the invested total times 100 when something
    is invested, and 0 otherwise, without a division; for a sequence with no
    open position the totals of the open table are 0, so the percentage is 0
    and the total result is the realised one. *)
Theorem summary_without_open_positions (market : string -> option num)
    (transactions : list Tx.t) (dash : Dashboard.t) :
  init market transactions = Rendered dash ->
  let s := updateSummary (Dashboard.totals dash)
             (Dashboard.totalRealizedPL dash) in
  Summary.totalPL s
    = totalUnrealizedPL (Dashboard.totals dash)
      + Dashboard.totalRealizedPL dash /\
  (0 < totalInvested (Dashboard.totals dash) ->
   Summary.totalPLPercent s * totalInvested (Dashboard.totals dash)
     = Summary.totalPL s * hundred) /\
  (totalInvested (Dashboard.totals dash) <= 0 ->
   Summary.totalPLPercent s = 0) /\
  (Dashboard.openData dash = [] ->
   Dashboard.totals dash = mkTotals 0 0 0 /\
   Summary.totalPLPercent s = 0 /\
   Summary.totalPL s = Dashboard.totalRealizedPL dash).
Proof.
  intros Hr s. subst s. unfold updateSummary.
  cbn [Summary.totalPL Summary.totalPLPercent].
  split; [reflexivity|]. split; [|split].
  - intro Hpos. pose proof (positive_nonzero _ Hpos) as Hnz.
    apply gtb_true_iff in Hpos. rewrite Hpos. field. exact Hnz.
  - intro Hle. apply gtb_false_iff in Hle. rewrite Hle. reflexivity.
  - intro Hempty.
    destruct transactions as [|tx l]; [discriminate Hr|].
    destruct (init_rendered_explicit market (tx :: l))
      as (d & Hd & Ht & Ho & _); [discriminate|].
    rewrite Hd in Hr. injection Hr as <-.
    rewrite Ho in Hempty. apply map_eq_nil in Hempty.
    apply map_eq_nil in Hempty. rewrite Hempty in Ht. simpl in Ht.
    rewrite Ht. cbn [totalInvested totalUnrealizedPL].
    split; [reflexivity|]. split; [reflexivity|]. ring.
Qed.

Lemma summary_without_open_positions_witness :
  match init (fun _ => None)
          [example_buy "A" "EUR" 1 1 None; example_sell "A" "EUR" 1 1] with
  | Rendered dash =>
      Summary.totalPLPercent
        (updateSummary (Dashboard.totals dash) (Dashboard.totalRealizedPL dash))
      = 0
  | Failed _ => False
  end.
Proof.
  destruct (init (fun _ => None)
              [example_buy "A" "EUR" 1 1 None; example_sell "A" "EUR" 1 1])
    as [|dash] eqn:E; [discriminate E|].
  destruct (summary_without_open_positions (fun _ => None)
              [example_buy "A" "EUR" 1 1 None; example_sell "A" "EUR" 1 1]
              dash E) as (_ & _ & _ & H).
  destruct H as (_ & H & _); [|exact H].
  injection E as <-. reflexivity.
Defined.

(** ** The currency of a ticker *)

Lemma substring_append (pre suf : string) :
  substring (String.length pre) (String.length suf) (pre ++ suf)%string = suf.
Proof.
  induction pre as [|c pre IH]; simpl.
  - induction suf as [|c suf IH]; simpl; [reflexivity|].
    rewrite IH. reflexivity.
  - exact IH.
Qed.

Lemma substring_suffix (s suf : string) (n : nat) :
  (n + String.length suf = String.length s)%nat ->
  substring n (String.length suf) s = suf ->
  exists pre, s = (pre ++ suf)%string.
Proof.
  revert s. induction n as [|n IH]; intros s Hlen Hsub.
  - exists EmptyString. simpl. rewrite <- Hsub. clear Hsub.
    revert suf Hlen. induction s as [|c s IHs]; intros suf Hlen.
    + destruct suf; [reflexivity|discriminate Hlen].
    + destruct suf as [|c' suf]; [discriminate Hlen|].
      simpl in *. f_equal. apply IHs. lia.
  - destruct s as [|c s]; [discriminate Hlen|].
    simpl in *. destruct (IH s) as [pre Hpre]; [lia|exact Hsub|].
    exists (String c pre). simpl. rewrite Hpre. reflexivity.
Qed.

Lemma length_append (a b : string) :
  String.length (a ++ b)%string = (String.length a + String.length b)%nat.
Proof. induction a as [|c a IH]; simpl; [reflexivity|]. rewrite IH. reflexivity. Qed.

(** [endsWith] holds exactly of the strings that are a prefix followed by
    the suffix. *)
Lemma endsWith_iff (s suf : string) :
  endsWith s suf = true <-> exists pre, s = (pre ++ suf)%string.
Proof.
  unfold endsWith. rewrite andb_true_iff, Nat.leb_le, String.eqb_eq. split.
  - intros [Hle Hsub]. apply (substring_suffix s suf _ (Nat.sub_add _ _ Hle) Hsub).
  - intros [pre ->]. rewrite length_append. split; [lia|].
    replace (String.length pre + String.length suf - String.length suf)%nat
      with (String.length pre) by lia.
    apply substring_append.
Qed.

Lemma last_char_append (pre suf : string) :
  suf <> EmptyString -> last_char (pre ++ suf)%string = last_char suf.
Proof.
  intro Hne. induction pre as [|c pre IH]; [reflexivity|].
  simpl. destruct (pre ++ suf)%string eqn:E; [|exact IH].
  destruct pre; [simpl in E; contradiction|discriminate E].
Qed.

Lemma endsWith_last_char (s suf : string) :
  suf <> EmptyString -> endsWith s suf = true -> last_char s = last_char suf.
Proof.
  intros Hne H. apply endsWith_iff in H. destruct H as [pre ->].
  apply last_char_append. exact Hne.
Qed.

(** X18: the currency of a ticker is decided by its suffix alone and the
    order of the tests does not matter, no ticker having two of the
    suffixes: pence for [.L], EUR for [.AS] and [.DE], SEK for [.ST], PLN
    for [.WA], and USD exactly for the tickers with none of the five. *)
Theorem getCurrencyFromTicker_by_suffix (ticker : string) :
  (getCurrencyFromTicker ticker = "GBX"
   <-> exists pre, ticker = (pre ++ ".L")%string) /\
  (getCurrencyFromTicker ticker = "EUR"
   <-> exists pre, ticker = (pre ++ ".AS")%string
                   \/ ticker = (pre ++ ".DE")%string) /\
  (getCurrencyFromTicker ticker = "SEK"
   <-> exists pre, ticker = (pre ++ ".ST")%string) /\
  (getCurrencyFromTicker ticker = "PLN"
   <-> exists pre, ticker = (pre ++ ".WA")%string) /\
  (getCurrencyFromTicker ticker = "USD"
   <-> endsWith ticker ".L" = false /\ endsWith ticker ".AS" = false /\
       endsWith ticker ".DE" = false /\ endsWith ticker ".ST" = false /\
       endsWith ticker ".WA" = false).
Proof.
  assert (X : forall a b, last_char a <> last_char b -> a <> EmptyString ->
              b <> EmptyString -> endsWith ticker a = true ->
              endsWith ticker b = false).
  { intros a b Hab Ha Hb H. destruct (endsWith ticker b) eqn:E; [|reflexivity].
    exfalso. apply Hab.
    rewrite <- (endsWith_last_char ticker a Ha H).
    apply (endsWith_last_char ticker b Hb E). }
  assert (S : forall suf, (exists pre, ticker = (pre ++ suf)%string)
                          <-> endsWith ticker suf = true).
  { intro suf. symmetry. apply endsWith_iff. }
  assert (S2 : (exists pre, ticker = (pre ++ ".AS")%string
                            \/ ticker = (pre ++ ".DE")%string)
               <-> endsWith ticker ".AS" = true \/ endsWith ticker ".DE" = true).
  { rewrite <- !S. split.
    - intros [pre [H|H]]; [left|right]; exists pre; exact H.
    - intros [[pre H]|[pre H]]; exists pre; [left|right]; exact H. }
  rewrite !S, S2. clear S S2. unfold getCurrencyFromTicker.
  destruct (endsWith ticker ".L") eqn:EL.
  { rewrite (X ".L" ".AS"), (X ".L" ".DE"), (X ".L" ".ST"), (X ".L" ".WA");
      try discriminate; try exact EL.
    repeat split; try discriminate; try tauto;
      intros; repeat match goal with H : _ /\ _ |- _ => destruct H
                                   | H : _ \/ _ |- _ => destruct H end;
      discriminate. }
  destruct (endsWith ticker ".AS") eqn:EAS.
  { rewrite (X ".AS" ".DE"), (X ".AS" ".ST"), (X ".AS" ".WA");
      try discriminate; try exact EAS.
    repeat split; try discriminate; try tauto;
      intros; repeat match goal with H : _ /\ _ |- _ => destruct H
                                   | H : _ \/ _ |- _ => destruct H end;
      discriminate. }
  destruct (endsWith ticker ".DE") eqn:EDE.
  { rewrite (X ".DE" ".ST"), (X ".DE" ".WA");
      try discriminate; try exact EDE.
    repeat split; try discriminate; try tauto;
      intros; repeat match goal with H : _ /\ _ |- _ => destruct H
                                   | H : _ \/ _ |- _ => destruct H end;
      discriminate. }
  destruct (endsWith ticker ".ST") eqn:EST.
  { rewrite (X ".ST" ".WA"); try discriminate; try exact EST.
    repeat split; try discriminate; try tauto;
      intros; repeat match goal with H : _ /\ _ |- _ => destruct H
                                   | H : _ \/ _ |- _ => destruct H end;
      discriminate. }
  destruct (endsWith ticker ".WA") eqn:EWA;
    repeat split; try discriminate; try tauto;
      intros; repeat match goal with H : _ /\ _ |- _ => destruct H
                                   | H : _ \/ _ |- _ => destruct H end;
      discriminate.
Qed.

(** ** The order of the open table *)

Lemma compare_rows_gt (a b : OpenRecord.t) :
  gtb (compare_rows a b) 0 = true
  <-> or_default (OpenRecord.currentValue a) 0
      < or_default (OpenRecord.currentValue b) 0.
Proof.
  rewrite gtb_true_iff. unfold compare_rows, Qcminus.
  symmetry. apply Qclt_minus_iff.
Qed.

Lemma row_before_iff (a b : OpenRecord.t) :
  row_before a b
  <-> or_default (OpenRecord.currentValue b) 0
      <= or_default (OpenRecord.currentValue a) 0.
Proof.
  unfold row_before. rewrite <- gtb_false_iff. split; intro H.
  - destruct (Qclt_le_dec (or_default (OpenRecord.currentValue a) 0)
                (or_default (OpenRecord.currentValue b) 0)) as [Hlt|Hle];
      [|exact Hle].
    apply compare_rows_gt in Hlt. congruence.
  - destruct (gtb (compare_rows a b) 0) eqn:G; [|reflexivity].
    apply compare_rows_gt in G. exfalso. exact (Qcle_not_lt _ _ H G).
Qed.

Lemma insert_row_perm (r : OpenRecord.t) (l : list OpenRecord.t) :
  Permutation (insert_row r l) (r :: l).
Proof.
  induction l as [|x l IH]; simpl; [apply Permutation_refl|].
  destruct (gtb (compare_rows r x) 0); [|apply Permutation_refl].
  apply Permutation_trans with (x :: r :: l).
  - apply perm_skip. exact IH.
  - apply perm_swap.
Qed.

Lemma insert_row_sorted (r : OpenRecord.t) (l : list OpenRecord.t) :
  Sorted row_before l -> Sorted row_before (insert_row r l).
Proof.
  induction l as [|x l IH]; intro H; simpl.
  - constructor; constructor.
  - inversion H as [|y ys Hs Hhd]; subst.
    destruct (gtb (compare_rows r x) 0) eqn:G.
    + constructor; [apply IH; exact Hs|].
      destruct l as [|z l]; simpl.
      * constructor. apply row_before_iff. apply Qclt_le_weak.
        apply compare_rows_gt. exact G.
      * destruct (gtb (compare_rows r z) 0).
        -- constructor. inversion Hhd; subst. assumption.
        -- constructor. apply row_before_iff. apply Qclt_le_weak.
           apply compare_rows_gt. exact G.
    + constructor; [exact H|]. constructor.
      unfold row_before. apply gtb_false_iff. exact G.
Qed.

Lemma insert_row_sorted_head (r : OpenRecord.t) (l : list OpenRecord.t) :
  HdRel row_before r l -> insert_row r l = r :: l.
Proof.
  intro H. destruct l as [|x l]; [reflexivity|].
  simpl. inversion H as [|y ys Hb]; subst.
  unfold row_before in Hb. apply gtb_false_iff in Hb. rewrite Hb. reflexivity.
Qed.

(** X19: sorting the open table keeps exactly its rows and puts them by
    decreasing current value, a row without a price counting as 0; rows
    already in that order, rows of equal value among them, are left where
    they are. *)
Theorem sort_rows_sorted (data : list OpenRecord.t) :
  Permutation (sort_rows data) data /\
  StronglySorted
    (fun a b => or_default (OpenRecord.currentValue b) 0
                <= or_default (OpenRecord.currentValue a) 0)
    (sort_rows data) /\
  (Sorted row_before data -> sort_rows data = data).
Proof.
  split; [|split].
  - induction data as [|r l IH]; simpl; [apply Permutation_refl|].
    apply Permutation_trans with (r :: sort_rows l).
    + apply insert_row_perm.
    + apply perm_skip. exact IH.
  - assert (HS : Sorted row_before (sort_rows data)).
    { induction data as [|r l IH]; simpl; [constructor|].
      apply insert_row_sorted. exact IH. }
    apply Sorted_StronglySorted in HS.
    + induction HS as [|a l HS IH Hall]; constructor; [exact IH|].
      apply Forall_forall. intros b Hb.
      apply row_before_iff. rewrite Forall_forall in Hall. exact (Hall b Hb).
    + intros a b c Hab Hbc. apply row_before_iff.
      apply row_before_iff in Hab, Hbc. exact (Qcle_trans _ _ _ Hbc Hab).
  - intro H. induction H as [|r l Hs IH Hhd]; [reflexivity|].
    simpl. rewrite IH. apply insert_row_sorted_head. exact Hhd.
Qed.

Lemma sort_rows_sorted_witness :
  sort_rows
    [open_metrics [("EUR", 1)] [("FREE.AS", Some (num_of_Z 3))] free_shares;
     open_metrics [("EUR", 1)] [] free_shares]
  = [open_metrics [("EUR", 1)] [("FREE.AS", Some (num_of_Z 3))] free_shares;
     open_metrics [("EUR", 1)] [] free_shares].
Proof.
  destruct (sort_rows_sorted
              [open_metrics [("EUR", 1)] [("FREE.AS", Some (num_of_Z 3))]
                 free_shares;
               open_metrics [("EUR", 1)] [] free_shares]) as (_ & _ & H).
  apply H. repeat constructor. discriminate.
Defined.
